(** * Project Tracker: the task list and its flat-file store

    A shallow embedding of [project_tracker.c].  The GTK widgets that hold
    the tasks are modelled as a record of explicit state ([app]); each
    callback of the program is a function on that state.  The file
    [tasks.txt] is a list of characters, the C library calls the program
    makes ([fgets], [strchr], [atoi], [fprintf]) are modelled on lists of
    characters with the zero character as string terminator. *)

From Stdlib Require Import Ascii String DecimalString.
From Stdlib Require Import List ZArith Lia Bool Arith.
Import ListNotations.

(* ================================================================== *)
(** ** C strings *)

(** A character buffer.  The end of the list stands for the terminating
    zero character the C library wrote; a zero character inside the list
    ends the C string earlier, as it does in C. *)
Definition chars := list ascii.

Definition NUL : ascii := "000"%char.
Definition newline : ascii := "010"%char.
Definition semicolon : ascii := ";"%char.

Definition bytes (s : string) : chars := list_ascii_of_string s.

(** The C string that starts at the beginning of a buffer: everything
    before the first zero character. *)
Fixpoint cstr (buf : chars) : chars :=
  match buf with
  | [] => []
  | c :: buf' => if Ascii.eqb c NUL then [] else c :: cstr buf'
  end.

Definition strlen (s : chars) : nat := length (cstr s).

(** [strchr s c] for a character [c] other than zero: the offset of the
    first [c] in the C string [s], or [None] for the null pointer. *)
Fixpoint strchr (s : chars) (c : ascii) : option nat :=
  match s with
  | [] => None
  | x :: s' =>
      if Ascii.eqb x c then Some 0
      else if Ascii.eqb x NUL then None
      else option_map S (strchr s' c)
  end.

(** [*(buf + pos) = c]. Offsets come from [strchr] and are in range. *)
Fixpoint poke (buf : chars) (pos : nat) (c : ascii) : chars :=
  match buf, pos with
  | [] , _ => []
  | _ :: buf', 0 => c :: buf'
  | x :: buf', S pos' => x :: poke buf' pos' c
  end.

(** The C string at offset [p] of a buffer. *)
Definition cstr_at (buf : chars) (p : nat) : chars := cstr (skipn p buf).

(** *** atoi *)

Definition isspace (c : ascii) : bool :=
  let n := nat_of_ascii c in
  (n =? 32) || ((9 <=? n) && (n <=? 13)).

Definition isdigit (c : ascii) : bool :=
  let n := nat_of_ascii c in (48 <=? n) && (n <=? 57).

Fixpoint skip_spaces (s : chars) : chars :=
  match s with
  | c :: s' => if isspace c then skip_spaces s' else s
  | [] => []
  end.

Fixpoint leading_digits (acc : Z) (s : chars) : Z :=
  match s with
  | c :: s' =>
      if isdigit c
      then leading_digits (10 * acc + (Z.of_nat (nat_of_ascii c) - 48)) s'
      else acc
  | [] => acc
  end.

Definition LONG_MAX : Z := 9223372036854775807%Z.
Definition LONG_MIN : Z := (-9223372036854775808)%Z.

(** [strtol (s, NULL, 10)]: optional white space, an optional sign, then
    decimal digits; whatever follows is ignored and no digit at all gives
    0.  [long] has 64 bits: a value out of its range gives [LONG_MAX] or
    [LONG_MIN]. *)
Definition strtol (s : chars) : Z :=
  let value : Z :=
    match skip_spaces (cstr s) with
    | [] => 0%Z
    | c :: s' =>
        if Ascii.eqb c "-" then (- leading_digits 0 s')%Z
        else if Ascii.eqb c "+" then leading_digits 0 s'
        else leading_digits 0 (c :: s')
    end in
  Z.max LONG_MIN (Z.min LONG_MAX value).

(** The conversion of a [long] to [int], which has 32 bits: the value
    modulo 2^32, taken in the range of [int]. *)
Definition int_of_long (z : Z) : Z :=
  ((z + 2147483648) mod 4294967296 - 2147483648)%Z.

(** [atoi (s)], as the C library of the program computes it:
    [(int) strtol (s, NULL, 10)].  The result is an [int]: the digits
    4294967297 give 1. *)
Definition atoi (s : chars) : Z := int_of_long (strtol s).

(** *** Streams *)

(** [fgets (line, n, file)]: reads up to [n - 1] characters and stops
    after a newline.  [read_line k s] is the read of at most [k]
    characters: the characters stored and the rest of the stream. *)
Fixpoint read_line (k : nat) (stream : chars) : chars * chars :=
  match k, stream with
  | 0, _ => ([], stream)
  | _, [] => ([], [])
  | S k', c :: stream' =>
      if Ascii.eqb c newline then ([c], stream')
      else let (l, rest) := read_line k' stream' in (c :: l, rest)
  end.

(** [None] is the null pointer [fgets] returns at end of file. *)
Definition fgets (n : nat) (stream : chars) : option (chars * chars) :=
  match stream with
  | [] => None
  | _ => Some (read_line (n - 1) stream)
  end.

(** The conversion [%d] of [fprintf]. *)
Definition fmt_d (z : Z) : chars := bytes (NilZero.string_of_int (Z.to_int z)).

(** The conversion [%s]: the C string, without its terminator. *)
Definition fmt_s (s : chars) : chars := cstr s.

(** [gboolean] is [int]; [TRUE] is 1 and [FALSE] is 0. *)
Definition gboolean_int (b : bool) : Z := if b then 1%Z else 0%Z.

(* ================================================================== *)
(** ** Data model *)

(** A task as the specification sees it. *)
Record Task := mkTask { text : chars; completed : bool }.

Definition TaskList := list Task.

(** A row of the list box, as [create_list_item] builds it: a check button
    and a label in a horizontal box.  [row_id] stands for the address of
    the widget, which is what the callbacks receive and compare. *)
Record list_box_row := mkRow {
  row_id : nat;
  label_text : chars;        (* gtk_label_get_text *)
  active : bool;             (* gtk_toggle_button_get_active *)
  completed_class : bool;    (* the label carries the CSS class "completed" *)
  selected : bool            (* the row is part of the selection *)
}.

Definition task_of_row (r : list_box_row) : Task :=
  mkTask (label_text r) (active r).

Definition tasks_of (lb : list list_box_row) : TaskList := map task_of_row lb.

(** What the program does to the outside, in the order it does it. *)
Inductive open_mode := Read_mode | Write_mode.

Inductive event :=
| Fopen (mode : open_mode) (ok : bool)   (* fopen ("tasks.txt", mode) *)
| G_warning (msg : string)
| G_print (msg : string).

(** The working directory: the content of [tasks.txt] if the file exists,
    and whether opening it for reading or for writing is permitted. *)
Record filesystem := mkFs {
  tasks_txt : option chars;
  read_ok : bool;
  write_ok : bool
}.

Definition fopen_r (fs : filesystem) : option chars :=
  if read_ok fs then tasks_txt fs else None.

(** The state of the running program. *)
Record app := mkApp {
  list_box : list list_box_row;
  entry : chars;             (* gtk_entry_get_text *)
  next_widget : nat;         (* the next fresh widget address *)
  disk : filesystem;
  trace : list event
}.

Definition with_list_box (a : app) (lb : list list_box_row) : app :=
  mkApp lb (entry a) (next_widget a) (disk a) (trace a).

Definition with_entry (a : app) (s : chars) : app :=
  mkApp (list_box a) s (next_widget a) (disk a) (trace a).

Definition with_tasks_txt (a : app) (content : chars) : app :=
  mkApp (list_box a) (entry a) (next_widget a)
        (mkFs (Some content) (read_ok (disk a)) (write_ok (disk a))) (trace a).

Definition emit (a : app) (evs : list event) : app :=
  mkApp (list_box a) (entry a) (next_widget a) (disk a) (trace a ++ evs).

Definition tasks (a : app) : TaskList := tasks_of (list_box a).

Definition is_save (e : event) : bool :=
  match e with Fopen Write_mode _ => true | _ => false end.

(** The number of times [save_tasks_to_file] ran: it opens the file for
    writing once per call, and nothing else does. *)
Definition save_calls (a : app) : nat := length (filter is_save (trace a)).

(* ================================================================== *)
(** ** GTK *)

Definition same_row (r x : list_box_row) : bool := row_id x =? row_id r.

(** [gtk_container_add (list_box, row)]: the list box has no sort
    function, the row goes to the end. *)
Definition gtk_container_add (lb : list list_box_row) (row : list_box_row) :=
  lb ++ [row].

(** [gtk_container_remove (list_box, row)]: a widget that is not a child
    of the container is left alone. *)
Definition gtk_container_remove (lb : list list_box_row) (row : list_box_row) :=
  filter (fun x => negb (same_row row x)) lb.

(** [gtk_list_box_get_row_at_index]: the null pointer out of range. *)
Definition gtk_list_box_get_row_at_index (lb : list list_box_row) (index : Z)
  : option list_box_row :=
  if (index <? 0)%Z then None else nth_error lb (Z.to_nat index).

(** [gtk_list_box_row_get_index]: -1 for a row that is in no list box. *)
Fixpoint gtk_list_box_row_get_index (lb : list list_box_row) (row : list_box_row) : Z :=
  match lb with
  | [] => (-1)%Z
  | x :: lb' =>
      if same_row row x then 0%Z
      else let i := gtk_list_box_row_get_index lb' row in
           if (i <? 0)%Z then (-1)%Z else (i + 1)%Z
  end.

Definition gtk_list_box_get_selected_rows (lb : list list_box_row) :=
  filter selected lb.

(* ================================================================== *)
(** ** The program *)

(** [create_list_item]: a fresh row; neither callback runs here, the
    "toggled" handler is connected after the button state is set. *)
Definition create_list_item (text : chars) (is_completed : bool) (a : app)
  : list_box_row * app :=
  (mkRow (next_widget a) (cstr text) is_completed is_completed false,
   mkApp (list_box a) (entry a) (S (next_widget a)) (disk a) (trace a)).

Definition fprintf_task (is_completed : bool) (text : chars) : chars :=
  fmt_d (gboolean_int is_completed) ++ [semicolon] ++ fmt_s text ++ [newline].

(** The [while (row)] loop of [save_tasks_to_file]: [file] is what has been
    written so far.  [None] means the fuel ran out. *)
Fixpoint save_rows (fuel : nat) (lb : list list_box_row)
         (row : option list_box_row) (file : chars) {struct fuel} : option chars :=
  match row with
  | None => Some file
  | Some r =>
      match fuel with
      | 0 => None
      | S fuel' =>
          save_rows fuel' lb
            (gtk_list_box_get_row_at_index lb (gtk_list_box_row_get_index lb r + 1))
            (file ++ fprintf_task (active r) (label_text r))
      end
  end.

(** [save_tasks_to_file]: when the file opens, it is emptied and every row
    is written to it.  The loop needs one turn per row when the addresses
    of the rows are distinct ([save_tasks_to_file_spec] below). *)
Definition save_tasks_to_file (a : app) : option app :=
  if write_ok (disk a) then
    match save_rows (length (list_box a)) (list_box a)
                    (gtk_list_box_get_row_at_index (list_box a) 0) [] with
    | Some file => Some (with_tasks_txt (emit a [Fopen Write_mode true]) file)
    | None => None
    end
  else
    Some (emit a [Fopen Write_mode false;
                  G_warning "Could not open file 'tasks.txt' for writing."]).

(** The body of the loop of [load_tasks_from_file] up to the call of
    [create_list_item]: the text and the flag parsed from [line].
    [line1] and [line2] are the buffer after each write of a zero
    character, [text] is an offset into it. *)
Definition parse_line (line : chars) : chars * bool :=
  let '(line1, text, is_completed) :=
    match strchr line semicolon with
    | Some semicolon_pos =>
        let line1 := poke line semicolon_pos NUL in
        (line1, S semicolon_pos, (atoi line1 =? 1)%Z)
    | None => (line, 0, false)
    end in
  let line2 :=
    match strchr (skipn text line1) newline with
    | Some newline_pos => poke line1 (text + newline_pos) NUL
    | None => line1
    end in
  (cstr_at line2 text, is_completed).

(** The rest of the loop body: the new row goes into the list box. *)
Definition load_line (a : app) (line : chars) : app :=
  let (text, is_completed) := parse_line line in
  let (list_item, a1) := create_list_item text is_completed a in
  with_list_box a1 (gtk_container_add (list_box a1) list_item).

(** [while (fgets (line, sizeof (line), file) != NULL)], with
    [char line[1024]].  [None] means the fuel ran out. *)
Fixpoint load_lines (fuel : nat) (file : chars) (a : app) : option app :=
  match fuel with
  | 0 => None
  | S fuel' =>
      match fgets 1024 file with
      | None => Some a
      | Some (line, file') => load_lines fuel' file' (load_line a line)
      end
  end.

Definition no_tasks_txt_message : string :=
  "No 'tasks.txt' found. Starting with an empty list." ++ String newline EmptyString.

(** [load_tasks_from_file]: the rows read are added to those the list box
    holds; [activate] calls it on the empty list box.  A file of [n]
    characters is read in at most [n] turns of the loop
    ([load_tasks_from_file_spec] below). *)
Definition load_tasks_from_file (a : app) : option app :=
  match fopen_r (disk a) with
  | None =>
      Some (emit a [Fopen Read_mode false;
                    G_print no_tasks_txt_message])
  | Some file => load_lines (S (length file)) file (emit a [Fopen Read_mode true])
  end.

Definition on_add_button_clicked (a : app) : option app :=
  let text := entry a in
  if 0 <? strlen text then
    let (list_item, a1) := create_list_item text false a in
    let a2 := with_list_box a1 (gtk_container_add (list_box a1) list_item) in
    save_tasks_to_file (with_entry a2 [])
  else Some a.

(** The [for] loop over the selected rows. *)
Definition remove_rows (selected_rows lb : list list_box_row) :=
  fold_left gtk_container_remove selected_rows lb.

Definition on_remove_button_clicked (a : app) : option app :=
  match gtk_list_box_get_selected_rows (list_box a) with
  | [] => Some a
  | selected_rows =>
      save_tasks_to_file (with_list_box a (remove_rows selected_rows (list_box a)))
  end.

(** [widget] is the check button of the row with address [row]. *)
Definition on_check_button_toggled (row : nat) (a : app) : option app :=
  let restyle x :=
    if row_id x =? row
    then mkRow (row_id x) (label_text x) (active x) (active x) (selected x)
    else x in
  save_tasks_to_file (with_list_box a (map restyle (list_box a))).

Definition on_window_destroy (a : app) : option app := save_tasks_to_file a.

(** The state [activate] builds before it loads the file. *)
Definition fresh (fs : filesystem) : app := mkApp [] [] 0 fs [].

Definition activate (fs : filesystem) : option app := load_tasks_from_file (fresh fs).

(** *** User actions *)

(** GTK flips the state of a check button when it is clicked and then
    emits "toggled"; a click needs the button to be on screen. *)
Definition click_check_button (row : nat) (a : app) : option app :=
  if existsb (fun x => row_id x =? row) (list_box a) then
    let flip x :=
      if row_id x =? row
      then mkRow (row_id x) (label_text x) (negb (active x)) (completed_class x) (selected x)
      else x in
    on_check_button_toggled row (with_list_box a (map flip (list_box a)))
  else Some a.

Definition select_row (row : nat) (on : bool) (a : app) : app :=
  let mark x :=
    if row_id x =? row
    then mkRow (row_id x) (label_text x) (active x) (completed_class x) on
    else x in
  with_list_box a (map mark (list_box a)).

Inductive action :=
| Load_file                    (* load_tasks_from_file, from activate *)
| Type_text (s : chars)        (* the user edits the entry *)
| Click_add
| Click_check (row : nat)
| Select (row : nat) (on : bool)
| Click_remove
| Close_window.

Definition step (act : action) (a : app) : option app :=
  match act with
  | Load_file => load_tasks_from_file a
  | Type_text s => Some (with_entry a (cstr s))
  | Click_add => on_add_button_clicked a
  | Click_check row => click_check_button row a
  | Select row on => Some (select_row row on a)
  | Click_remove => on_remove_button_clicked a
  | Close_window => on_window_destroy a
  end.

Fixpoint run (acts : list action) (a : app) : option app :=
  match acts with
  | [] => Some a
  | act :: acts' =>
      match step act a with
      | Some a' => run acts' a'
      | None => None
      end
  end.

(* ================================================================== *)
(** ** Specification vocabulary *)

Definition no_NUL (s : chars) : Prop := ~ In NUL s.

(** The states the program can be in: widget addresses are distinct and
    were handed out by the allocator, label texts are C strings. *)
Record wf (a : app) : Prop := mkWf {
  wf_ids : NoDup (map row_id (list_box a));
  wf_fresh : Forall (fun r => row_id r < next_widget a) (list_box a);
  wf_text : Forall (fun r => no_NUL (label_text r)) (list_box a);
  wf_entry : no_NUL (entry a)
}.

(** One line [<0|1>;<text>\n] per task, in list order. *)
Definition serialize (lb : list list_box_row) : chars :=
  flat_map (fun r => fprintf_task (active r) (label_text r)) lb.

(** What [save_tasks_to_file] leaves behind. *)
Definition saved (a : app) : app :=
  if write_ok (disk a)
  then with_tasks_txt (emit a [Fopen Write_mode true]) (serialize (list_box a))
  else emit a [Fopen Write_mode false;
               G_warning "Could not open file 'tasks.txt' for writing."].

(** A row whose line fits the buffer of [load_tasks_from_file]. *)
Definition fits (r : list_box_row) : Prop :=
  no_NUL (label_text r) /\ ~ In newline (label_text r) /\ length (label_text r) <= 1020.

(** The lines [fgets] cuts a file into. *)
Fixpoint lines_of (fuel : nat) (file : chars) : option (list chars) :=
  match fuel with
  | 0 => None
  | S fuel' =>
      match fgets 1024 file with
      | None => Some []
      | Some (line, file') => option_map (cons line) (lines_of fuel' file')
      end
  end.

(** The specification's reading of a line, in its own words: split at the
    first separator, compare the integer before it with 1, drop the line
    terminator at the end of the text. *)
Fixpoint split_at_first (c : ascii) (s : chars) : option (chars * chars) :=
  match s with
  | [] => None
  | x :: s' =>
      if Ascii.eqb x c then Some ([], s')
      else match split_at_first c s' with
           | Some (before, after) => Some (x :: before, after)
           | None => None
           end
  end.

Fixpoint strip_trailing_newline (s : chars) : chars :=
  match s with
  | [] => []
  | c :: s' =>
      match s' with
      | [] => if Ascii.eqb c newline then [] else [c]
      | _ => c :: strip_trailing_newline s'
      end
  end.

Definition line_spec (line : chars) : Task :=
  match split_at_first semicolon line with
  | Some (flag, rest) => mkTask (strip_trailing_newline rest) (atoi flag =? 1)%Z
  | None => mkTask (strip_trailing_newline line) false
  end.

(** A newline, if there is one, is the last character. *)
Fixpoint newline_only_last (s : chars) : Prop :=
  match s with
  | [] => True
  | c :: s' => (c = newline -> s' = []) /\ newline_only_last s'
  end.

(** The characters before the first [c], all of them if there is none. *)
Fixpoint before (c : ascii) (s : chars) : chars :=
  match s with
  | [] => []
  | x :: s' => if Ascii.eqb x c then [] else x :: before c s'
  end.

Definition is_whitespace (s : chars) : Prop := Forall (fun c => isspace c = true) s.

(** The row a toggle leaves in place of [x]. *)
Definition toggled (x : list_box_row) : list_box_row :=
  mkRow (row_id x) (label_text x) (negb (active x)) (negb (active x)) (selected x).

Definition has_row (row : nat) (a : app) : Prop := In row (map row_id (list_box a)).

Definition texts (a : app) : list chars := map text (tasks a).

(** The invariant the data model asks of a task. *)
Definition task_invariant (t : Task) : Prop :=
  text t <> [] /\ ~ In newline (text t) /\ ~ In semicolon (text t).

(** *** Sample states *)

Definition row (address : nat) (t : string) (done sel : bool) : list_box_row :=
  mkRow address (bytes t) done done sel.

Definition writable_disk : filesystem := mkFs None true true.

Definition read_only_disk : filesystem := mkFs None true false.

Definition two_tasks : app :=
  mkApp [row 0 "a" false false; row 1 "b" false false] [] 2 writable_disk [].

Definition three_tasks : app :=
  mkApp [row 0 "a" false true; row 1 "b" true false; row 2 "c" false true]
        [] 3 writable_disk [].

Definition milk_entry : app := mkApp [] (bytes "buy milk") 0 writable_disk [].

Definition blank_entry : app := mkApp [] (bytes "   ") 0 writable_disk [].


Definition long_text : chars := repeat "a"%char 1021.

Definition long_task : app :=
  mkApp [mkRow 0 long_text false false false] [] 1 writable_disk [].


Definition odd_file : chars :=
  bytes "0;" ++ [newline] ++ bytes "1;a;b" ++ [newline].

Definition report_file : chars :=
  bytes "1;finish report" ++ [newline] ++ bytes "hello world" ++ [newline].

(** *** Disk and display *)

(** The file holds what [save_tasks_to_file] would write now. *)
Definition in_sync (a : app) : Prop :=
  tasks_txt (disk a) = Some (serialize (list_box a)).

(** The label of a row carries the class "completed" exactly when its
    check button is active. *)
Definition styled (r : list_box_row) : Prop := completed_class r = active r.

(** The line of a row in the file, character by character. *)
Definition task_line (r : list_box_row) : chars :=
  (if active r then "1"%char else "0"%char) :: semicolon :: label_text r ++ [newline].

(** Every line but the last ends with a newline or fills the buffer of
    1023 characters. *)
Fixpoint full_but_last (ls : list chars) : Prop :=
  match ls with
  | [] => True
  | l :: ls' =>
      (ls' <> [] -> (exists p, l = p ++ [newline]) \/ length l = 1023)
      /\ full_but_last ls'
  end.

Definition is_load (act : action) : bool :=
  match act with Load_file => true | _ => false end.

Definition synced_tasks : app :=
  mkApp [row 0 "a;b" false false; row 1 "c" true true] [] 2
        (mkFs (Some (bytes "0;a;b" ++ [newline] ++ bytes "1;c" ++ [newline])) true true)
        [].

Definition two_line_task : app :=
  mkApp [mkRow 0 (bytes "a" ++ [newline] ++ bytes "b") true true false] [] 1
        writable_disk [].

(* ================================================================== *)
(** ** C strings: lemmas *)

Lemma newline_not_NUL : newline <> NUL.
Proof. discriminate. Qed.

Lemma semicolon_not_NUL : semicolon <> NUL.
Proof. discriminate. Qed.

Lemma cstr_no_NUL (s : chars) : no_NUL (cstr s).
Proof.
  unfold no_NUL. induction s as [|c s IH]; simpl; [tauto|].
  destruct (Ascii.eqb c NUL) eqn:E; simpl; [tauto|].
  apply Ascii.eqb_neq in E. intros [H|H]; [congruence | tauto].
Qed.

Lemma cstr_fixed (s : chars) : no_NUL s -> cstr s = s.
Proof.
  unfold no_NUL. induction s as [|c s IH]; simpl; intros H; [reflexivity|].
  destruct (Ascii.eqb c NUL) eqn:E.
  - apply Ascii.eqb_eq in E. tauto.
  - f_equal. apply IH. tauto.
Qed.

Lemma cstr_idem (s : chars) : cstr (cstr s) = cstr s.
Proof. apply cstr_fixed, cstr_no_NUL. Qed.

Lemma atoi_cstr (s : chars) : atoi (cstr s) = atoi s.
Proof. unfold atoi, strtol. rewrite cstr_idem. reflexivity. Qed.

Lemma strlen_zero (s : chars) : no_NUL s -> strlen s = 0 -> s = [].
Proof.
  intros H. unfold strlen. rewrite (cstr_fixed _ H).
  destruct s; simpl; [reflexivity | discriminate].
Qed.

Lemma no_NUL_app (s t : chars) : no_NUL s -> no_NUL t -> no_NUL (s ++ t).
Proof. unfold no_NUL. intros Hs Ht H. apply in_app_or in H. tauto. Qed.

Lemma before_no_NUL (c : ascii) (s : chars) : no_NUL s -> no_NUL (before c s).
Proof.
  unfold no_NUL. induction s as [|x s IH]; simpl; [tauto|].
  intros H. destruct (Ascii.eqb x c); simpl; tauto.
Qed.

Lemma before_absent (c : ascii) (s : chars) : ~ In c s -> before c s = s.
Proof.
  induction s as [|x s IH]; simpl; intros H; [reflexivity|].
  destruct (Ascii.eqb x c) eqn:E.
  - apply Ascii.eqb_eq in E. tauto.
  - f_equal. apply IH. tauto.
Qed.

Lemma before_not_in (c : ascii) (s : chars) : ~ In c (before c s).
Proof.
  induction s as [|x s IH]; simpl; [tauto|].
  destruct (Ascii.eqb x c) eqn:E; simpl; [tauto|].
  apply Ascii.eqb_neq in E. intros [H|H]; [congruence | tauto].
Qed.

(** What [strchr] finds, read on the C string: the split of the
    specification, and the effect of writing a zero at the place found. *)
Lemma strchr_split (c : ascii) (line : chars) :
  c <> NUL ->
  match strchr line c with
  | Some i =>
      split_at_first c (cstr line) = Some (firstn i line, cstr (skipn (S i) line))
      /\ cstr (poke line i NUL) = firstn i line
      /\ skipn (S i) (poke line i NUL) = skipn (S i) line
  | None => split_at_first c (cstr line) = None
  end.
Proof.
  intros Hc. induction line as [|x line IH]; simpl; [reflexivity|].
  destruct (Ascii.eqb x c) eqn:Exc.
  - apply Ascii.eqb_eq in Exc. subst x.
    assert (E : Ascii.eqb c NUL = false) by (apply Ascii.eqb_neq; assumption).
    simpl. rewrite E. simpl. rewrite Ascii.eqb_refl. auto.
  - destruct (Ascii.eqb x NUL) eqn:Ex0; [reflexivity|].
    destruct (strchr line c) as [i|]; simpl.
    + destruct IH as (IH1 & IH2 & IH3).
      rewrite Exc, IH1, Ex0, IH2. auto.
    + rewrite Exc, IH. reflexivity.
Qed.

Lemma skipn_poke (buf : chars) (p j : nat) (c : ascii) :
  skipn p (poke buf (p + j) c) = poke (skipn p buf) j c.
Proof.
  revert buf. induction p as [|p IH]; intros buf; simpl; [reflexivity|].
  destruct buf as [|x buf]; simpl; [destruct j; reflexivity | apply IH].
Qed.

Lemma cstr_cut (c : ascii) (s : chars) :
  c <> NUL ->
  cstr (match strchr s c with Some j => poke s j NUL | None => s end)
  = before c (cstr s).
Proof.
  intros Hc. induction s as [|x s IH]; simpl; [reflexivity|].
  destruct (Ascii.eqb x c) eqn:Exc.
  - apply Ascii.eqb_eq in Exc. subst x.
    assert (E : Ascii.eqb c NUL = false) by (apply Ascii.eqb_neq; assumption).
    simpl. rewrite E. simpl. rewrite Ascii.eqb_refl. reflexivity.
  - destruct (Ascii.eqb x NUL) eqn:Ex0.
    + simpl. rewrite Ex0. reflexivity.
    + simpl. rewrite Exc. destruct (strchr s c) as [j|]; simpl in *;
        rewrite Ex0; f_equal; exact IH.
Qed.

(** The text [load_tasks_from_file] passes to [create_list_item]. *)
Lemma cut_at_newline (buf : chars) (p : nat) :
  cstr_at (match strchr (skipn p buf) newline with
           | Some j => poke buf (p + j) NUL
           | None => buf
           end) p
  = before newline (cstr (skipn p buf)).
Proof.
  unfold cstr_at. rewrite <- (cstr_cut newline (skipn p buf) newline_not_NUL).
  destruct (strchr (skipn p buf) newline); [rewrite skipn_poke|]; reflexivity.
Qed.

Lemma parse_line_eq (line : chars) :
  parse_line line =
  match split_at_first semicolon (cstr line) with
  | Some (flag, rest) => (before newline rest, (atoi flag =? 1)%Z)
  | None => (before newline (cstr line), false)
  end.
Proof.
  unfold parse_line.
  pose proof (strchr_split semicolon line semicolon_not_NUL) as H.
  destruct (strchr line semicolon) as [i|].
  - destruct H as (H1 & H2 & H3). rewrite H1, cut_at_newline, H3.
    rewrite <- (atoi_cstr (poke line i NUL)), H2. reflexivity.
  - rewrite H. rewrite cut_at_newline. reflexivity.
Qed.

Lemma parse_line_no_NUL (line : chars) : no_NUL (fst (parse_line line)).
Proof.
  rewrite parse_line_eq.
  pose proof (strchr_split semicolon line semicolon_not_NUL) as H.
  destruct (strchr line semicolon) as [i|].
  - destruct H as (H1 & _). rewrite H1. simpl.
    apply before_no_NUL, cstr_no_NUL.
  - rewrite H. simpl. apply before_no_NUL, cstr_no_NUL.
Qed.

Lemma parse_line_no_newline (line : chars) : ~ In newline (fst (parse_line line)).
Proof.
  rewrite parse_line_eq.
  destruct (split_at_first semicolon (cstr line)) as [[flag rest]|]; simpl;
    apply before_not_in.
Qed.

(* ================================================================== *)
(** ** Reading lines *)

Lemma read_line_app (k : nat) (s : chars) :
  fst (read_line k s) ++ snd (read_line k s) = s.
Proof.
  revert s. induction k as [|k IH]; intros s; [destruct s; reflexivity|].
  destruct s as [|c s]; simpl; [reflexivity|].
  destruct (Ascii.eqb c newline); [reflexivity|].
  specialize (IH s). destruct (read_line k s) as [l r]. simpl in *.
  f_equal. exact IH.
Qed.

Lemma read_line_length (k : nat) (s : chars) : length (fst (read_line k s)) <= k.
Proof.
  revert s. induction k as [|k IH]; intros s; [destruct s; simpl; lia|].
  destruct s as [|c s]; simpl; [lia|].
  destruct (Ascii.eqb c newline); simpl; [lia|].
  specialize (IH s). destruct (read_line k s) as [l r]. simpl in *. lia.
Qed.

Lemma read_line_progress (k : nat) (c : ascii) (s : chars) :
  length (snd (read_line (S k) (c :: s))) <= length s.
Proof.
  simpl. destruct (Ascii.eqb c newline); simpl; [lia|].
  pose proof (read_line_app k s) as H.
  destruct (read_line k s) as [l r]. simpl in *.
  rewrite <- H, length_app. lia.
Qed.

Lemma read_line_newline_last (k : nat) (s : chars) :
  newline_only_last (fst (read_line k s)).
Proof.
  revert s. induction k as [|k IH]; intros s; [destruct s; exact I|].
  destruct s as [|c s]; simpl; [exact I|].
  destruct (Ascii.eqb c newline) eqn:E; simpl; [auto|].
  specialize (IH s). destruct (read_line k s) as [l r]. simpl in *.
  split; [|exact IH]. intros ->. discriminate.
Qed.

(** A line that fits the buffer is read whole. *)
Lemma read_line_whole (k : nat) (l rest : chars) :
  ~ In newline l -> length l < k ->
  read_line k (l ++ newline :: rest) = (l ++ [newline], rest).
Proof.
  revert k. induction l as [|c l IH]; intros k Hn Hk.
  - destruct k; [lia|]. reflexivity.
  - destruct k; [simpl in Hk; lia|]. simpl.
    destruct (Ascii.eqb c newline) eqn:E.
    + apply Ascii.eqb_eq in E. simpl in Hn. tauto.
    + rewrite IH; [reflexivity | simpl in Hn; tauto | simpl in Hk; lia].
Qed.

Lemma fgets_newline_last (n : nat) (stream line rest : chars) :
  fgets n stream = Some (line, rest) -> newline_only_last line.
Proof.
  destruct stream as [|c s]; [discriminate|]. unfold fgets. intros H.
  injection H as H. pose proof (read_line_newline_last (n - 1) (c :: s)) as N.
  rewrite H in N. exact N.
Qed.

Lemma fgets_length (n : nat) (stream line rest : chars) :
  fgets n stream = Some (line, rest) -> length line <= n - 1.
Proof.
  destruct stream as [|c s]; [discriminate|]. unfold fgets. intros H.
  injection H as H. pose proof (read_line_length (n - 1) (c :: s)) as N.
  rewrite H in N. exact N.
Qed.

Lemma fgets_app (n : nat) (stream line rest : chars) :
  fgets n stream = Some (line, rest) -> stream = line ++ rest.
Proof.
  destruct stream as [|c s]; [discriminate|]. unfold fgets. intros H.
  injection H as H. pose proof (read_line_app (n - 1) (c :: s)) as N.
  rewrite H in N. symmetry. exact N.
Qed.

Lemma newline_only_last_cstr (s : chars) :
  newline_only_last s -> newline_only_last (cstr s).
Proof.
  induction s as [|c s IH]; simpl; [tauto|]. intros [H1 H2].
  destruct (Ascii.eqb c NUL); simpl; [exact I|].
  split; [|auto]. intros E. rewrite (H1 E). reflexivity.
Qed.

Lemma newline_only_last_after (c : ascii) (s flag rest : chars) :
  split_at_first c s = Some (flag, rest) ->
  newline_only_last s -> newline_only_last rest.
Proof.
  revert flag. induction s as [|x s IH]; simpl; intros flag; [discriminate|].
  intros H [_ N]. destruct (Ascii.eqb x c).
  - injection H as _ <-. exact N.
  - destruct (split_at_first c s) as [[p q]|]; [|discriminate].
    injection H as _ <-. eapply IH; [reflexivity | exact N].
Qed.

(** Cutting at the first newline is dropping the line terminator, on what
    [fgets] returns. *)
Lemma before_newline_strip (s : chars) :
  newline_only_last s -> before newline s = strip_trailing_newline s.
Proof.
  induction s as [|c s IH]; simpl; [reflexivity|]. intros [H1 H2].
  destruct (Ascii.eqb c newline) eqn:E.
  - apply Ascii.eqb_eq in E. rewrite (H1 E). reflexivity.
  - destruct s as [|d s]; [reflexivity|]. f_equal. exact (IH H2).
Qed.

Lemma parse_line_spec (line : chars) :
  newline_only_last line ->
  parse_line line = (text (line_spec (cstr line)), completed (line_spec (cstr line))).
Proof.
  intros N. apply newline_only_last_cstr in N.
  rewrite parse_line_eq. unfold line_spec.
  destruct (split_at_first semicolon (cstr line)) as [[flag rest]|] eqn:E; simpl.
  - rewrite (before_newline_strip _ (newline_only_last_after _ _ _ _ E N)). reflexivity.
  - rewrite (before_newline_strip _ N). reflexivity.
Qed.

Lemma tasks_load_line (a : app) (line : chars) :
  tasks (load_line a line)
  = tasks a ++ [mkTask (fst (parse_line line)) (snd (parse_line line))].
Proof.
  unfold load_line, tasks, tasks_of.
  pose proof (parse_line_no_NUL line) as H.
  destruct (parse_line line) as [t c]. simpl in *.
  unfold gtk_container_add. rewrite map_app. simpl. unfold task_of_row. simpl.
  rewrite (cstr_fixed _ H). reflexivity.
Qed.


(* ================================================================== *)
(** ** Saving *)

Lemma get_row_at_nat (lb : list list_box_row) (i : nat) :
  gtk_list_box_get_row_at_index lb (Z.of_nat i) = nth_error lb i.
Proof.
  unfold gtk_list_box_get_row_at_index.
  destruct (Z.ltb_spec (Z.of_nat i) 0) as [H|H]; [lia|].
  rewrite Nat2Z.id. reflexivity.
Qed.

(** With distinct addresses, a row knows its place. *)
Lemma row_index_nth (lb : list list_box_row) :
  NoDup (map row_id lb) ->
  forall i r, nth_error lb i = Some r ->
    gtk_list_box_row_get_index lb r = Z.of_nat i.
Proof.
  induction lb as [|x lb IH]; intros D i r H.
  - destruct i; discriminate.
  - simpl in D. inversion D as [|? ? Hx D']; subst.
    destruct i as [|i]; simpl in H |- *.
    + injection H as <-. unfold same_row. rewrite Nat.eqb_refl. reflexivity.
    + assert (Hr : In (row_id r) (map row_id lb))
        by (apply in_map, (nth_error_In _ _ H)).
      unfold same_row. destruct (Nat.eqb_spec (row_id x) (row_id r)) as [E|E].
      * rewrite E in Hx. contradiction.
      * rewrite (IH D' i r H).
        destruct (Z.ltb_spec (Z.of_nat i) 0); lia.
Qed.

Lemma skipn_nth_error (lb : list list_box_row) (i : nat) (r : list_box_row) :
  nth_error lb i = Some r -> skipn i lb = r :: skipn (S i) lb.
Proof.
  revert i. induction lb as [|x lb IH]; intros i H; [destruct i; discriminate|].
  destruct i as [|i]; simpl in H.
  - injection H as <-. reflexivity.
  - simpl. apply IH. exact H.
Qed.

(** The loop of [save_tasks_to_file] writes every row from where it
    stands to the end of the list, once each and in order. *)
Lemma save_rows_from (lb : list list_box_row) :
  NoDup (map row_id lb) ->
  forall fuel i file, length lb <= fuel + i ->
    save_rows fuel lb (gtk_list_box_get_row_at_index lb (Z.of_nat i)) file
    = Some (file ++ serialize (skipn i lb)).
Proof.
  intros D. induction fuel as [|fuel IH]; intros i file Hf;
    rewrite get_row_at_nat; destruct (nth_error lb i) as [r|] eqn:E.
  - assert (i < length lb) by (apply nth_error_Some; congruence). lia.
  - apply nth_error_None in E. rewrite (skipn_all2 _ E), app_nil_r. reflexivity.
  - simpl. rewrite (row_index_nth lb D i r E).
    replace (Z.of_nat i + 1)%Z with (Z.of_nat (S i)) by lia.
    rewrite IH by lia. rewrite (skipn_nth_error _ _ _ E).
    unfold serialize at 2. simpl. rewrite <- app_assoc. reflexivity.
  - apply nth_error_None in E. rewrite (skipn_all2 _ E), app_nil_r. reflexivity.
Qed.

Lemma save_tasks_to_file_spec (a : app) :
  NoDup (map row_id (list_box a)) -> save_tasks_to_file a = Some (saved a).
Proof.
  intros D. unfold save_tasks_to_file, saved.
  destruct (write_ok (disk a)); [|reflexivity].
  change 0%Z with (Z.of_nat 0).
  rewrite (save_rows_from _ D (length (list_box a)) 0 []) by lia.
  reflexivity.
Qed.

Lemma list_box_saved (a : app) : list_box (saved a) = list_box a.
Proof. unfold saved. destruct (write_ok (disk a)); reflexivity. Qed.

Lemma entry_saved (a : app) : entry (saved a) = entry a.
Proof. unfold saved. destruct (write_ok (disk a)); reflexivity. Qed.

Lemma next_widget_saved (a : app) : next_widget (saved a) = next_widget a.
Proof. unfold saved. destruct (write_ok (disk a)); reflexivity. Qed.

Lemma save_calls_saved (a : app) : save_calls (saved a) = S (save_calls a).
Proof.
  unfold saved, save_calls.
  destruct (write_ok (disk a)); simpl; rewrite filter_app, length_app; simpl; lia.
Qed.

Lemma tasks_txt_saved (a : app) :
  write_ok (disk a) = true ->
  tasks_txt (disk (saved a)) = Some (serialize (list_box a)).
Proof. unfold saved. intros ->. reflexivity. Qed.

Lemma wf_saved (a : app) : wf a -> wf (saved a).
Proof.
  intros [H1 H2 H3 H4]. split;
    rewrite ?list_box_saved, ?next_widget_saved, ?entry_saved; assumption.
Qed.

(* ================================================================== *)
(** ** Well-formed states *)

Lemma wf_fresh_state (fs : filesystem) : wf (fresh fs).
Proof. split; simpl; try constructor. intros []. Qed.

(** A row from [create_list_item] put at the end of the list box. *)
Lemma wf_new_row (a : app) (t : chars) (c : bool) (e : chars) :
  wf a -> no_NUL e ->
  wf (mkApp (list_box a ++ [mkRow (next_widget a) (cstr t) c c false])
            e (S (next_widget a)) (disk a) (trace a)).
Proof.
  intros [H1 H2 H3 H4] He. split; simpl; [| | |exact He].
  - rewrite map_app. simpl. apply NoDup_app; [assumption | repeat constructor; simpl; tauto |].
    intros x Hx [<-|[]]. apply in_map_iff in Hx. destruct Hx as (r & Er & Hr).
    rewrite Forall_forall in H2. specialize (H2 r Hr). simpl in H2. lia.
  - apply Forall_app. split.
    + eapply Forall_impl; [|exact H2]. simpl. intros; lia.
    + repeat constructor.
  - apply Forall_app. split; [assumption|].
    repeat constructor. simpl. apply cstr_no_NUL.
Qed.

Lemma load_line_unfold (a : app) (line : chars) :
  load_line a line =
  mkApp (list_box a ++ [mkRow (next_widget a) (cstr (fst (parse_line line)))
                              (snd (parse_line line)) (snd (parse_line line)) false])
        (entry a) (S (next_widget a)) (disk a) (trace a).
Proof. unfold load_line. destruct (parse_line line). reflexivity. Qed.

Lemma wf_load_line (a : app) (line : chars) : wf a -> wf (load_line a line).
Proof. intros H. rewrite load_line_unfold. apply wf_new_row; [|apply wf_entry]; exact H. Qed.

Lemma wf_map_rows (a : app) (f : list_box_row -> list_box_row) :
  (forall x, row_id (f x) = row_id x) ->
  (forall x, label_text (f x) = label_text x) ->
  wf a -> wf (with_list_box a (map f (list_box a))).
Proof.
  intros Hid Htxt [H1 H2 H3 H4]. split; simpl; [| | |exact H4].
  - rewrite map_map. rewrite (map_ext _ row_id Hid). exact H1.
  - apply Forall_map. eapply Forall_impl; [|exact H2].
    simpl. intros x. rewrite Hid. auto.
  - apply Forall_map. eapply Forall_impl; [|exact H3].
    simpl. intros x. rewrite Htxt. auto.
Qed.

Lemma NoDup_map_filter (f : list_box_row -> bool) (lb : list list_box_row) :
  NoDup (map row_id lb) -> NoDup (map row_id (filter f lb)).
Proof.
  induction lb as [|x lb IH]; simpl; intros D; [constructor|].
  inversion D as [|? ? Hx D']; subst. destruct (f x); simpl; [|auto].
  constructor; [|auto]. intros H. apply Hx.
  apply in_map_iff in H. destruct H as (r & Er & Hr).
  apply filter_In in Hr. apply in_map_iff. exists r. tauto.
Qed.

Lemma wf_filter_rows (a : app) (f : list_box_row -> bool) :
  wf a -> wf (with_list_box a (filter f (list_box a))).
Proof.
  intros [H1 H2 H3 H4]. split; simpl; [| | |exact H4].
  - apply NoDup_map_filter, H1.
  - apply Forall_forall. intros x Hx. apply filter_In in Hx.
    rewrite Forall_forall in H2. apply H2. tauto.
  - apply Forall_forall. intros x Hx. apply filter_In in Hx.
    rewrite Forall_forall in H3. apply H3. tauto.
Qed.

(* ================================================================== *)
(** ** Loading *)

Lemma load_lines_fold (fuel : nat) (file : chars) (a : app) :
  load_lines fuel file a =
  option_map (fun ls => fold_left load_line ls a) (lines_of fuel file).
Proof.
  revert file a. induction fuel as [|fuel IH]; intros file a; [reflexivity|].
  simpl. destruct (fgets 1024 file) as [[line file']|]; [|reflexivity].
  rewrite IH. destruct (lines_of fuel file'); reflexivity.
Qed.

(** The loop ends: every turn consumes at least one character. *)
Lemma lines_of_total (fuel : nat) (file : chars) :
  length file < fuel -> exists ls, lines_of fuel file = Some ls.
Proof.
  revert file. induction fuel as [|fuel IH]; intros file H; [lia|].
  simpl. destruct file as [|c s]; [exists []; reflexivity|].
  unfold fgets. change (1024 - 1) with (S 1022).
  pose proof (read_line_progress 1022 c s) as P.
  destruct (read_line (S 1022) (c :: s)) as [line rest]. simpl in P.
  destruct (IH rest) as [ls E]; [simpl in H; lia|].
  exists (line :: ls). rewrite E. reflexivity.
Qed.

Lemma tasks_fold_load_line (ls : list chars) (a : app) :
  tasks (fold_left load_line ls a)
  = tasks a ++ map (fun l => mkTask (fst (parse_line l)) (snd (parse_line l))) ls.
Proof.
  revert a. induction ls as [|l ls IH]; intros a; simpl.
  - rewrite app_nil_r. reflexivity.
  - rewrite IH, tasks_load_line, <- app_assoc. reflexivity.
Qed.

Lemma wf_fold_load_line (ls : list chars) (a : app) :
  wf a -> wf (fold_left load_line ls a).
Proof.
  revert a. induction ls as [|l ls IH]; intros a H; simpl; [exact H|].
  apply IH, wf_load_line, H.
Qed.

Lemma frame_fold_load_line (ls : list chars) (a : app) :
  disk (fold_left load_line ls a) = disk a
  /\ trace (fold_left load_line ls a) = trace a
  /\ entry (fold_left load_line ls a) = entry a.
Proof.
  revert a. induction ls as [|l ls IH]; intros a; simpl; [auto|].
  destruct (IH (load_line a l)) as (H1 & H2 & H3).
  rewrite H1, H2, H3, load_line_unfold. auto.
Qed.

(** [load_tasks_from_file] always returns, and what it returns. *)
Lemma load_tasks_from_file_spec (a : app) :
  match fopen_r (disk a) with
  | None =>
      load_tasks_from_file a
      = Some (emit a [Fopen Read_mode false; G_print no_tasks_txt_message])
  | Some file =>
      exists ls, lines_of (S (length file)) file = Some ls
        /\ load_tasks_from_file a
           = Some (fold_left load_line ls (emit a [Fopen Read_mode true]))
  end.
Proof.
  unfold load_tasks_from_file. destruct (fopen_r (disk a)) as [file|]; [|reflexivity].
  destruct (lines_of_total (S (length file)) file) as [ls E]; [lia|].
  exists ls. split; [exact E|]. rewrite load_lines_fold, E. reflexivity.
Qed.

Lemma wf_emit (a : app) (evs : list event) : wf a -> wf (emit a evs).
Proof. intros [H1 H2 H3 H4]. split; assumption. Qed.

Lemma wf_with_entry (a : app) (s : chars) : wf a -> no_NUL s -> wf (with_entry a s).
Proof. intros [H1 H2 H3 H4] Hs. split; assumption. Qed.

(* ================================================================== *)
(** ** Saving, then loading *)

Lemma fmt_d_gboolean (b : bool) :
  fmt_d (gboolean_int b) = [if b then "1"%char else "0"%char].
Proof. destruct b; reflexivity. Qed.

Lemma fprintf_task_shape (c : bool) (t : chars) :
  no_NUL t ->
  fprintf_task c t = ((if c then "1"%char else "0"%char) :: semicolon :: t) ++ [newline].
Proof.
  intros H. unfold fprintf_task, fmt_s. rewrite fmt_d_gboolean, (cstr_fixed _ H).
  reflexivity.
Qed.

Lemma serialize_task_lines (lb : list list_box_row) :
  Forall (fun r => no_NUL (label_text r)) lb ->
  serialize lb = concat (map task_line lb).
Proof.
  unfold serialize. rewrite flat_map_concat_map. intros H. f_equal.
  apply map_ext_in. intros r Hr. rewrite Forall_forall in H.
  rewrite (fprintf_task_shape _ _ (H r Hr)). unfold task_line.
  simpl. reflexivity.
Qed.

Lemma before_app_newline (t : chars) :
  ~ In newline t -> before newline (t ++ [newline]) = t.
Proof.
  induction t as [|x t IH]; simpl; intros H; [reflexivity|].
  destruct (Ascii.eqb x newline) eqn:E.
  - apply Ascii.eqb_eq in E. tauto.
  - f_equal. apply IH. tauto.
Qed.

(** Reading back a line that [save_tasks_to_file] wrote. *)
Lemma parse_line_fprintf_task (c : bool) (t : chars) :
  no_NUL t -> ~ In newline t -> parse_line (fprintf_task c t) = (t, c).
Proof.
  intros H0 Hn. rewrite parse_line_eq, (fprintf_task_shape c _ H0).
  rewrite cstr_fixed.
  - assert (E : Ascii.eqb (if c then "1"%char else "0"%char) semicolon = false)
      by (destruct c; reflexivity).
    simpl. rewrite E. simpl. rewrite (before_app_newline _ Hn).
    destruct c; reflexivity.
  - apply no_NUL_app; [|intros [E|[]]; discriminate].
    intros [E|[E|E]]; [destruct c; discriminate | discriminate | exact (H0 E)].
Qed.

Lemma fgets_whole (n : nat) (l rest : chars) :
  ~ In newline l -> length l < n - 1 ->
  fgets n (l ++ newline :: rest) = Some (l ++ [newline], rest).
Proof.
  intros Hn Hl. unfold fgets. rewrite (read_line_whole _ _ _ Hn Hl).
  destruct l; reflexivity.
Qed.

Lemma fgets_fprintf_task (c : bool) (t rest : chars) :
  no_NUL t -> ~ In newline t -> length t <= 1020 ->
  fgets 1024 (fprintf_task c t ++ rest) = Some (fprintf_task c t, rest).
Proof.
  intros H0 Hn Hl. rewrite (fprintf_task_shape c _ H0).
  rewrite <- app_assoc. apply fgets_whole.
  - intros [E|[E|E]]; [destruct c; discriminate | discriminate | exact (Hn E)].
  - change (1024 - 1) with 1023. cbn [length]. lia.
Qed.

Lemma lines_of_serialize (lb : list list_box_row) :
  Forall fits lb ->
  forall fuel, length (serialize lb) < fuel ->
    lines_of fuel (serialize lb)
    = Some (map (fun r => fprintf_task (active r) (label_text r)) lb).
Proof.
  induction 1 as [|r lb (H0 & Hn & Hl) _ IH]; intros fuel Hf.
  - destruct fuel; [lia | reflexivity].
  - destruct fuel; [lia|].
    change (serialize (r :: lb))
      with (fprintf_task (active r) (label_text r) ++ serialize lb) in Hf |- *.
    cbn [lines_of map]. rewrite (fgets_fprintf_task _ _ _ H0 Hn Hl), IH; [reflexivity|].
    rewrite length_app, (fprintf_task_shape _ _ H0), length_app in Hf.
    cbn [length] in Hf. lia.
Qed.

Lemma round_trip_rows (a : app) :
  wf a -> write_ok (disk a) = true -> read_ok (disk a) = true ->
  Forall fits (list_box a) ->
  exists a1 a2,
    save_tasks_to_file a = Some a1
    /\ activate (disk a1) = Some a2
    /\ tasks a2 = tasks a.
Proof.
  intros W Hw Hr F. exists (saved a).
  rewrite (save_tasks_to_file_spec a (wf_ids a W)).
  unfold activate.
  pose proof (load_tasks_from_file_spec (fresh (disk (saved a)))) as L.
  assert (E : fopen_r (disk (fresh (disk (saved a)))) = Some (serialize (list_box a))).
  { unfold fopen_r, saved. rewrite Hw. simpl. rewrite Hr. reflexivity. }
  rewrite E in L. destruct L as (ls & Els & L).
  rewrite (lines_of_serialize _ F) in Els by lia. injection Els as <-.
  eexists. split; [reflexivity|]. split; [exact L|].
  rewrite tasks_fold_load_line. simpl. rewrite map_map.
  unfold tasks, tasks_of. apply map_ext_in. intros r Hr'.
  rewrite Forall_forall in F. destruct (F r Hr') as (H0 & Hn & _).
  rewrite (parse_line_fprintf_task _ _ H0 Hn). reflexivity.
Qed.

(* ================================================================== *)
(** ** The callbacks *)

Lemma on_add_button_clicked_spec (a : app) :
  wf a -> 0 < strlen (entry a) ->
  on_add_button_clicked a =
  Some (saved (mkApp (list_box a ++ [mkRow (next_widget a) (entry a) false false false])
                     [] (S (next_widget a)) (disk a) (trace a))).
Proof.
  intros W H. unfold on_add_button_clicked.
  apply Nat.ltb_lt in H. rewrite H. unfold create_list_item. simpl.
  unfold with_entry, with_list_box, gtk_container_add. simpl.
  pose proof (wf_new_row a (entry a) false [] W) as W'.
  rewrite (cstr_fixed _ (wf_entry a W)) in W' |- *.
  apply save_tasks_to_file_spec. apply (wf_ids _ (W' (fun f => f))).
Qed.

Lemma restyle_flip (row : nat) (lb : list list_box_row) :
  map (fun x => if row_id x =? row
                then mkRow (row_id x) (label_text x) (active x) (active x) (selected x)
                else x)
      (map (fun x => if row_id x =? row
                     then mkRow (row_id x) (label_text x) (negb (active x))
                                (completed_class x) (selected x)
                     else x) lb)
  = map (fun x => if row_id x =? row then toggled x else x) lb.
Proof.
  rewrite map_map. apply map_ext. intros x.
  destruct (row_id x =? row) eqn:E; simpl; rewrite E; reflexivity.
Qed.

Lemma wf_toggle (a : app) (row : nat) :
  wf a ->
  wf (with_list_box a (map (fun x => if row_id x =? row then toggled x else x)
                           (list_box a))).
Proof.
  apply wf_map_rows; intros x; destruct (row_id x =? row); reflexivity.
Qed.

Lemma click_check_button_spec (a : app) (row : nat) :
  wf a -> has_row row a ->
  click_check_button row a =
  Some (saved (with_list_box a
                 (map (fun x => if row_id x =? row then toggled x else x)
                      (list_box a)))).
Proof.
  intros W H. unfold click_check_button.
  assert (E : existsb (fun x => row_id x =? row) (list_box a) = true).
  { apply existsb_exists. unfold has_row in H. apply in_map_iff in H.
    destruct H as (x & Ex & Hx). exists x. split; [exact Hx|].
    apply Nat.eqb_eq, Ex. }
  rewrite E. unfold on_check_button_toggled. simpl. rewrite restyle_flip.
  apply save_tasks_to_file_spec. apply (wf_ids _ (wf_toggle a row W)).
Qed.

Lemma filter_twice (f g : list_box_row -> bool) (lb : list list_box_row) :
  filter g (filter f lb) = filter (fun x => f x && g x) lb.
Proof.
  induction lb as [|x lb IH]; simpl; [reflexivity|].
  destruct (f x); simpl; [destruct (g x)|]; rewrite IH; reflexivity.
Qed.

(** The loop of [on_remove_button_clicked], for any list of rows: the rows
    named in it go, rows it names that are not in the list box change
    nothing, the others keep their order. *)
Lemma remove_rows_filter (refs lb : list list_box_row) :
  remove_rows refs lb
  = filter (fun x => negb (existsb (fun r => same_row r x) refs)) lb.
Proof.
  unfold remove_rows. revert lb. induction refs as [|r refs IH]; intros lb; simpl.
  - symmetry. apply forallb_filter_id. apply forallb_forall. reflexivity.
  - rewrite IH. unfold gtk_container_remove. rewrite filter_twice.
    apply filter_ext. intros x. rewrite negb_orb. reflexivity.
Qed.

Lemma row_id_injective (lb : list list_box_row) :
  NoDup (map row_id lb) ->
  forall x y, In x lb -> In y lb -> row_id x = row_id y -> x = y.
Proof.
  induction lb as [|z lb IH]; simpl; intros D x y Hx Hy E; [contradiction|].
  inversion D as [|? ? Hz D']; subst.
  destruct Hx as [<-|Hx], Hy as [<-|Hy]; auto.
  - exfalso. apply Hz. rewrite E. apply in_map, Hy.
  - exfalso. apply Hz. rewrite <- E. apply in_map, Hx.
Qed.

Lemma selected_by_address (lb : list list_box_row) :
  NoDup (map row_id lb) ->
  forall x, In x lb ->
    existsb (fun r => same_row r x) (gtk_list_box_get_selected_rows lb) = selected x.
Proof.
  intros D x Hx. unfold gtk_list_box_get_selected_rows.
  destruct (selected x) eqn:S.
  - apply existsb_exists. exists x. split; [apply filter_In; auto|].
    unfold same_row. apply Nat.eqb_refl.
  - destruct (existsb _ _) eqn:E; [|reflexivity].
    apply existsb_exists in E. destruct E as (r & Hr & Er).
    apply filter_In in Hr. destruct Hr as [Hr Sr].
    unfold same_row in Er. apply Nat.eqb_eq in Er.
    rewrite (row_id_injective lb D x r Hx Hr Er) in S. congruence.
Qed.

Lemma remove_selected_rows (lb : list list_box_row) :
  NoDup (map row_id lb) ->
  remove_rows (gtk_list_box_get_selected_rows lb) lb
  = filter (fun x => negb (selected x)) lb.
Proof.
  intros D. rewrite remove_rows_filter. apply filter_ext_in.
  intros x Hx. rewrite (selected_by_address lb D x Hx). reflexivity.
Qed.

Lemma on_remove_button_clicked_spec (a : app) :
  wf a ->
  on_remove_button_clicked a =
  Some (match gtk_list_box_get_selected_rows (list_box a) with
        | [] => a
        | _ => saved (with_list_box a (filter (fun x => negb (selected x)) (list_box a)))
        end).
Proof.
  intros W. unfold on_remove_button_clicked.
  pose proof (remove_selected_rows (list_box a) (wf_ids a W)) as R.
  destruct (gtk_list_box_get_selected_rows (list_box a)) as [|r rs]; [reflexivity|].
  rewrite R. apply save_tasks_to_file_spec.
  apply (wf_ids _ (wf_filter_rows a _ W)).
Qed.

Lemma filter_length_split (f : list_box_row -> bool) (lb : list list_box_row) :
  length lb = length (filter (fun x => negb (f x)) lb) + length (filter f lb).
Proof.
  induction lb as [|x lb IH]; simpl; [reflexivity|].
  destruct (f x); simpl; lia.
Qed.

(* ================================================================== *)
(** ** Every action returns, in a well-formed state *)

Lemma has_row_existsb (a : app) (row : nat) :
  existsb (fun x => row_id x =? row) (list_box a) = true -> has_row row a.
Proof.
  intros E. apply existsb_exists in E. destruct E as (x & Hx & Ex).
  apply Nat.eqb_eq in Ex. subst row. apply in_map, Hx.
Qed.

Lemma wf_load_tasks_from_file (a : app) :
  wf a -> exists a', load_tasks_from_file a = Some a' /\ wf a'.
Proof.
  intros W. pose proof (load_tasks_from_file_spec a) as L.
  destruct (fopen_r (disk a)) as [file|].
  - destruct L as (ls & _ & L). eexists. split; [exact L|].
    apply wf_fold_load_line, wf_emit, W.
  - eexists. split; [exact L|]. apply wf_emit, W.
Qed.

Lemma step_wf (act : action) (a : app) :
  wf a -> exists a', step act a = Some a' /\ wf a'.
Proof.
  intros W. destruct act as [|s| |row|row on| |]; simpl.
  - apply wf_load_tasks_from_file, W.
  - eexists. split; [reflexivity|]. apply wf_with_entry; [exact W | apply cstr_no_NUL].
  - destruct (Nat.ltb_spec 0 (strlen (entry a))) as [H|H].
    + eexists. split; [apply on_add_button_clicked_spec; assumption|].
      pose proof (wf_new_row a (entry a) false [] W (fun f => f)) as W'.
      rewrite (cstr_fixed _ (wf_entry a W)) in W'. apply wf_saved, W'.
    + exists a. split; [|exact W]. unfold on_add_button_clicked.
      destruct (Nat.ltb_spec 0 (strlen (entry a))); [lia | reflexivity].
  - destruct (existsb (fun x => row_id x =? row) (list_box a)) eqn:E.
    + eexists. split.
      * apply click_check_button_spec; [exact W | apply has_row_existsb, E].
      * apply wf_saved, wf_toggle, W.
    + exists a. split; [|exact W]. unfold click_check_button. rewrite E. reflexivity.
  - eexists. split; [reflexivity|]. unfold select_row.
    apply wf_map_rows; [| |exact W]; intros x; destruct (row_id x =? row); reflexivity.
  - eexists. split; [apply on_remove_button_clicked_spec, W|].
    destruct (gtk_list_box_get_selected_rows (list_box a)); [exact W|].
    apply wf_saved, wf_filter_rows, W.
  - eexists. split; [apply save_tasks_to_file_spec, (wf_ids a W)|].
    apply wf_saved, W.
Qed.

Lemma run_wf (acts : list action) (a : app) :
  wf a -> exists a', run acts a = Some a' /\ wf a'.
Proof.
  revert a. induction acts as [|act acts IH]; intros a W; simpl.
  - exists a. auto.
  - destruct (step_wf act a W) as (a1 & E & W1). rewrite E. apply IH, W1.
Qed.

(** Whatever the user does after start-up, the program keeps running and
    its widgets stay well formed. *)
Corollary session_wf (fs : filesystem) (acts : list action) :
  exists a, run (Load_file :: acts) (fresh fs) = Some a /\ wf a.
Proof. apply run_wf, wf_fresh_state. Qed.

(* ================================================================== *)
(** ** The store: load and save *)

Ltac solve_wf :=
  split; simpl;
  [ repeat constructor; simpl; intuition (try discriminate; try lia)
  | repeat constructor; simpl; lia
  | repeat constructor; vm_compute; intuition discriminate
  | vm_compute; intuition discriminate ].

Lemma wf_two_tasks : wf two_tasks.
Proof. solve_wf. Qed.

Lemma wf_three_tasks : wf three_tasks.
Proof. solve_wf. Qed.

Lemma wf_milk_entry : wf milk_entry.
Proof. solve_wf. Qed.

Lemma not_in_repeat (c x : ascii) (n : nat) : x <> c -> ~ In x (repeat c n).
Proof. intros H I. apply repeat_spec in I. congruence. Qed.

Lemma wf_long_task : wf long_task.
Proof.
  split; simpl.
  - repeat constructor. simpl. tauto.
  - repeat constructor.
  - repeat constructor. simpl. apply not_in_repeat. discriminate.
  - intros [].
Qed.

(** C7. When [tasks.txt] does not exist, [load_tasks_from_file] returns
    normally, adds no task (so the list that starts empty stays empty),
    leaves the disk alone and only prints a message: no warning, no
    error. *)
Theorem load_without_file_is_empty (a : app) :
  tasks_txt (disk a) = None ->
  exists a',
    load_tasks_from_file a = Some a'
    /\ tasks a' = tasks a
    /\ (list_box a = [] -> tasks a' = [])
    /\ disk a' = disk a
    /\ trace a' = trace a ++ [Fopen Read_mode false; G_print no_tasks_txt_message].
Proof.
  intros H. unfold load_tasks_from_file, fopen_r. rewrite H.
  exists (emit a [Fopen Read_mode false; G_print no_tasks_txt_message]).
  destruct (read_ok (disk a)); repeat split; unfold tasks; simpl; intros ->; reflexivity.
Qed.

Lemma load_without_file_is_empty_witness :
  exists a',
    load_tasks_from_file (fresh writable_disk) = Some a'
    /\ tasks a' = tasks (fresh writable_disk)
    /\ (list_box (fresh writable_disk) = [] -> tasks a' = [])
    /\ disk a' = disk (fresh writable_disk)
    /\ trace a' = trace (fresh writable_disk)
                  ++ [Fopen Read_mode false; G_print no_tasks_txt_message].
Proof. apply (load_without_file_is_empty (fresh writable_disk)). reflexivity. Defined.

(** C8. When [tasks.txt] cannot be opened for writing,
    [save_tasks_to_file] logs a warning and returns; the rows of the list
    box, the entry and the file are what they were. *)
Theorem save_failure_keeps_state (a : app) :
  write_ok (disk a) = false ->
  exists a',
    save_tasks_to_file a = Some a'
    /\ list_box a' = list_box a
    /\ entry a' = entry a
    /\ disk a' = disk a
    /\ trace a' = trace a ++ [Fopen Write_mode false;
                              G_warning "Could not open file 'tasks.txt' for writing."].
Proof.
  intros H. unfold save_tasks_to_file. rewrite H.
  eexists. split; [reflexivity|]. repeat split.
Qed.

Lemma save_failure_keeps_state_witness :
  exists a',
    save_tasks_to_file (mkApp (list_box two_tasks) [] 2 read_only_disk []) = Some a'
    /\ list_box a' = list_box two_tasks
    /\ entry a' = []
    /\ disk a' = read_only_disk
    /\ trace a' = [Fopen Write_mode false;
                   G_warning "Could not open file 'tasks.txt' for writing."].
Proof.
  apply (save_failure_keeps_state (mkApp (list_box two_tasks) [] 2 read_only_disk [])).
  reflexivity.
Defined.

Lemma fits_of_task (a : app) :
  wf a ->
  Forall (fun t => ~ In semicolon (text t) /\ ~ In newline (text t)
                   /\ length (text t) <= 1020) (tasks a) ->
  Forall fits (list_box a).
Proof.
  intros W F. pose proof (wf_text a W) as T.
  unfold tasks, tasks_of in F. rewrite Forall_map in F.
  rewrite Forall_forall in *. intros r Hr.
  destruct (F r Hr) as (_ & Hn & Hl). split; [exact (T r Hr)|]. auto.
Qed.

(** Within the buffer of the loader the round trip holds: for every list
    in which no text contains [;] or a newline and every text is at most
    1020 characters long (so that its line, with flag, separator and
    newline, fits the 1024 characters of [line]), saving the list and
    loading the file into an empty list box gives the same tasks: as many,
    in the same order, with the same texts and flags. *)
Theorem save_then_load_round_trip (a : app) :
  wf a -> write_ok (disk a) = true -> read_ok (disk a) = true ->
  Forall (fun t => ~ In semicolon (text t) /\ ~ In newline (text t)
                   /\ length (text t) <= 1020) (tasks a) ->
  exists a1 a2,
    save_tasks_to_file a = Some a1
    /\ activate (disk a1) = Some a2
    /\ tasks a2 = tasks a.
Proof.
  intros W Hw Hr F. apply round_trip_rows; try assumption.
  apply fits_of_task; assumption.
Qed.

Lemma save_then_load_round_trip_witness :
  exists a1 a2,
    save_tasks_to_file three_tasks = Some a1
    /\ activate (disk a1) = Some a2
    /\ tasks a2 = tasks three_tasks.
Proof.
  apply (save_then_load_round_trip three_tasks);
    [exact wf_three_tasks | reflexivity | reflexivity |].
  repeat constructor; vm_compute; intuition (try discriminate; try lia).
Defined.

(** C1. Saving a list whose texts contain neither [;] nor newline and
    loading the file should give the list back.  The program does not: a
    text of 1021 letters is written as a line of 1024 characters, and the
    loader, whose buffer [line] holds 1023 of them, reads the text as one
    task and the newline left over as a second task, with an empty text,
    that was never in the list. *)
Lemma long_text_is_not_read_back :
  wf long_task
  /\ Forall (fun t => ~ In semicolon (text t) /\ ~ In newline (text t)) (tasks long_task)
  /\ exists a1 a2,
       save_tasks_to_file long_task = Some a1
       /\ activate (disk a1) = Some a2
       /\ tasks a2 = [mkTask long_text false; mkTask [] false]
       /\ tasks a2 <> tasks long_task.
Proof.
  split; [exact wf_long_task|]. split.
  - unfold tasks, long_task. simpl.
    constructor; [split; apply not_in_repeat; discriminate | constructor].
  - eexists. eexists. split; [vm_compute; reflexivity|].
    split; [vm_compute; reflexivity|].
    split; [vm_compute; reflexivity|].
    intros H. apply (f_equal (@length Task)) in H. vm_compute in H. discriminate.
Qed.


(** The two lines of the specification's example. *)
Example load_report_file :
  option_map tasks (activate (mkFs (Some report_file) true true))
  = Some [mkTask (bytes "finish report") true; mkTask (bytes "hello world") false].
Proof. reflexivity. Qed.

(** The flag is an [int]: 4294967297 is 1 modulo 2^32, and so is
    -4294967295; a flag with too many digits for a [long] is not. *)
Example load_wrapped_flags :
  option_map tasks
    (activate (mkFs (Some (bytes "4294967297;x" ++ [newline]
                           ++ bytes "-4294967295;y" ++ [newline]
                           ++ bytes "99999999999999999999;z" ++ [newline]
                           ++ bytes " +1 and more;w" ++ [newline])) true true))
  = Some [mkTask (bytes "x") true; mkTask (bytes "y") true;
          mkTask (bytes "z") false; mkTask (bytes "w") true].
Proof. reflexivity. Qed.


(* ================================================================== *)
(** ** Adding a task *)

(** C2, amended.  When the entry is empty, [on_add_button_clicked] does
    nothing at all: the state it returns is the state it was given, so the
    list is unchanged and no save took place.  (The callback returns no
    value; an entry of white space only is not covered, see below.) *)
Theorem add_empty_text_is_noop (a : app) :
  strlen (entry a) = 0 ->
  exists a',
    on_add_button_clicked a = Some a'
    /\ a' = a
    /\ tasks a' = tasks a
    /\ save_calls a' = save_calls a
    /\ disk a' = disk a.
Proof.
  intros H. unfold on_add_button_clicked. rewrite H. simpl.
  exists a. repeat split.
Qed.

Lemma add_empty_text_is_noop_witness :
  exists a',
    on_add_button_clicked two_tasks = Some a'
    /\ a' = two_tasks
    /\ tasks a' = tasks two_tasks
    /\ save_calls a' = save_calls two_tasks
    /\ disk a' = disk two_tasks.
Proof. apply (add_empty_text_is_noop two_tasks). reflexivity. Defined.

(** C2 as stated fails: three spaces are white space only, and
    [on_add_button_clicked] adds them as a task and saves. *)
Lemma add_blank_text_appends :
  wf blank_entry
  /\ is_whitespace (entry blank_entry)
  /\ exists a',
       on_add_button_clicked blank_entry = Some a'
       /\ tasks a' = [mkTask (bytes "   ") false]
       /\ tasks a' <> tasks blank_entry
       /\ save_calls a' = 1
       /\ tasks_txt (disk a') = Some (bytes "0;   " ++ [newline]).
Proof.
  split; [solve_wf|]. split; [repeat constructor|].
  eexists. split; [vm_compute; reflexivity|].
  repeat split. discriminate.
Qed.

Lemma strlen_nonempty (s : chars) : no_NUL s -> s <> [] -> 0 < strlen s.
Proof.
  intros H N. unfold strlen. rewrite (cstr_fixed _ H).
  destruct s; [congruence | simpl; lia].
Qed.




(* ================================================================== *)
(** ** Task texts *)

Lemma texts_of_rows (lb : list list_box_row) :
  map text (tasks_of lb) = map label_text lb.
Proof. unfold tasks_of. rewrite map_map. reflexivity. Qed.

Lemma texts_saved (a : app) : texts (saved a) = texts a.
Proof. unfold texts, tasks. rewrite list_box_saved. reflexivity. Qed.

Lemma texts_map_rows (f : list_box_row -> list_box_row) (lb : list list_box_row) :
  (forall x, label_text (f x) = label_text x) ->
  map text (tasks_of (map f lb)) = map text (tasks_of lb).
Proof.
  intros H. rewrite !texts_of_rows, map_map. apply map_ext, H.
Qed.

Lemma texts_filter_rows (f : list_box_row -> bool) (lb : list list_box_row) :
  incl (map text (tasks_of (filter f lb))) (map text (tasks_of lb)).
Proof.
  rewrite !texts_of_rows. intros t H. apply in_map_iff in H.
  destruct H as (x & <- & Hx). apply filter_In in Hx. apply in_map. tauto.
Qed.

Lemma old_texts (Q : chars -> Prop) (old new : list chars) :
  incl new old -> Forall (fun t => In t old \/ Q t) new.
Proof. intros H. apply Forall_forall. intros t Ht. left. apply H, Ht. Qed.

(** C3 as stated fails: [load_tasks_from_file] makes a task with an empty
    text from the line "0;" and one whose text contains the separator from
    the line "1;a;b". *)
Lemma load_breaks_task_invariant :
  exists a,
    activate (mkFs (Some odd_file) true true) = Some a
    /\ tasks a = [mkTask [] false; mkTask (bytes "a;b") true]
    /\ ~ Forall task_invariant (tasks a).
Proof.
  eexists. split; [vm_compute; reflexivity|]. split; [reflexivity|].
  intros H. inversion H as [|? ? [N _] _]. apply N. reflexivity.
Qed.

(** C3, amended.  After any action, every task text either was a task text
    before, or was made by [load_tasks_from_file] and then contains no
    newline (it can be empty and can contain [;]), or was made by
    [on_add_button_clicked] and then is the text of the entry, which is not
    empty (it can contain [;] or a newline).  So a list loaded into an
    empty list box has no newline in any text, add only adds non-empty
    texts, and toggle and remove add no text and change none: they keep
    every property of the task texts. *)
Theorem task_texts_after_step (act : action) (a a' : app) :
  wf a -> step act a = Some a' ->
  Forall (fun t => In t (texts a)
                   \/ (act = Load_file /\ ~ In newline t)
                   \/ (act = Click_add /\ t = entry a /\ t <> []))
         (texts a').
Proof.
  intros W E. destruct act as [|s| |row|row on| |]; simpl in E.
  - pose proof (load_tasks_from_file_spec a) as L.
    destruct (fopen_r (disk a)) as [file|].
    + destruct L as (ls & _ & L). rewrite L in E. injection E as <-.
      unfold texts. rewrite tasks_fold_load_line, map_app, map_map. simpl.
      apply Forall_app. split.
      * apply old_texts. intros t Ht. exact Ht.
      * apply Forall_map, Forall_forall. intros l _. right. left.
        split; [reflexivity | apply parse_line_no_newline].
    + rewrite L in E. injection E as <-. apply old_texts. intros t Ht. exact Ht.
  - injection E as <-. apply old_texts. intros t Ht. exact Ht.
  - destruct (Nat.ltb_spec 0 (strlen (entry a))) as [H|H].
    + rewrite (on_add_button_clicked_spec a W H) in E. injection E as <-.
      rewrite texts_saved. unfold texts, tasks, tasks_of. simpl.
      rewrite !map_app. simpl. apply Forall_app. split.
      * apply old_texts. intros t Ht. exact Ht.
      * constructor; [|constructor]. right. right.
        split; [reflexivity|]. split; [reflexivity|].
        intros N. rewrite N in H. unfold strlen in H. simpl in H. lia.
    + unfold on_add_button_clicked in E.
      destruct (Nat.ltb_spec 0 (strlen (entry a))); [lia|].
      injection E as <-. apply old_texts. intros t Ht. exact Ht.
  - unfold click_check_button in E.
    destruct (existsb (fun x => row_id x =? row) (list_box a)) eqn:X.
    + fold (click_check_button row a) in E.
      assert (E' : click_check_button row a = Some a').
      { unfold click_check_button. rewrite X. exact E. }
      rewrite (click_check_button_spec a row W (has_row_existsb a row X)) in E'.
      injection E' as <-. rewrite texts_saved. apply old_texts.
      unfold texts, tasks. simpl. rewrite texts_map_rows; [intros t Ht; exact Ht|].
      intros x. destruct (row_id x =? row); reflexivity.
    + injection E as <-. apply old_texts. intros t Ht. exact Ht.
  - injection E as <-. apply old_texts.
    unfold texts, tasks, select_row. simpl.
    rewrite texts_map_rows; [intros t Ht; exact Ht|].
    intros x. destruct (row_id x =? row); reflexivity.
  - rewrite (on_remove_button_clicked_spec a W) in E. injection E as <-.
    apply old_texts.
    destruct (gtk_list_box_get_selected_rows (list_box a)); [intros t Ht; exact Ht|].
    rewrite texts_saved. apply texts_filter_rows.
  - unfold on_window_destroy in E.
    rewrite (save_tasks_to_file_spec a (wf_ids a W)) in E. injection E as <-.
    rewrite texts_saved. apply old_texts. intros t Ht. exact Ht.
Qed.

Lemma task_texts_after_step_witness :
  Forall (fun t => In t (texts (fresh (mkFs (Some odd_file) true true)))
                   \/ (Load_file = Load_file /\ ~ In newline t)
                   \/ (Load_file = Click_add
                       /\ t = entry (fresh (mkFs (Some odd_file) true true))
                       /\ t <> []))
         [[]; bytes "a;b"].
Proof.
  apply (task_texts_after_step Load_file (fresh (mkFs (Some odd_file) true true))
           (mkApp [mkRow 0 [] false false false; mkRow 1 (bytes "a;b") true true false]
                  [] 2 (mkFs (Some odd_file) true true) [Fopen Read_mode true])).
  - apply wf_fresh_state.
  - reflexivity.
Defined.

(* ================================================================== *)
(** ** Removing the selected tasks *)

(** C5 as stated fails for the empty selection: nothing is removed and
    [save_tasks_to_file] is not called at all. *)
Lemma remove_without_selection_does_not_save :
  wf two_tasks
  /\ gtk_list_box_get_selected_rows (list_box two_tasks) = []
  /\ exists a',
       on_remove_button_clicked two_tasks = Some a'
       /\ tasks a' = tasks two_tasks
       /\ save_calls a' = save_calls two_tasks
       /\ save_calls a' <> save_calls two_tasks + 1.
Proof.
  split; [exact wf_two_tasks|].
  split; [reflexivity|]. eexists. split; [reflexivity|].
  repeat split. discriminate.
Qed.

(** C5, amended.  [on_remove_button_clicked] removes from the list box
    exactly the selected rows and keeps the others in their order; the list
    gets shorter by the number of selected rows (the callback returns no
    value).  If at least one row is selected, [save_tasks_to_file] is
    called exactly once, after all removals, so the file, when it can be
    written, holds the remaining tasks; if no row is selected it is not
    called.  The removal loop itself, for any list of rows, removes the
    rows it names and ignores those that are not in the list box. *)
Theorem remove_button_removes_selection (a : app) :
  wf a ->
  exists a',
    on_remove_button_clicked a = Some a'
    /\ list_box a' = filter (fun x => negb (selected x)) (list_box a)
    /\ length (list_box a)
       = length (list_box a') + length (gtk_list_box_get_selected_rows (list_box a))
    /\ save_calls a'
       = save_calls a + match gtk_list_box_get_selected_rows (list_box a) with
                        | [] => 0
                        | _ => 1
                        end
    /\ (gtk_list_box_get_selected_rows (list_box a) <> [] ->
        write_ok (disk a) = true ->
        tasks_txt (disk a') = Some (serialize (list_box a')))
    /\ (forall refs lb,
          remove_rows refs lb
          = filter (fun x => negb (existsb (fun r => same_row r x) refs)) lb).
Proof.
  intros W. eexists. split; [apply on_remove_button_clicked_spec, W|].
  assert (L : list_box
                match gtk_list_box_get_selected_rows (list_box a) with
                | [] => a
                | _ => saved (with_list_box a
                                (filter (fun x => negb (selected x)) (list_box a)))
                end
              = filter (fun x => negb (selected x)) (list_box a)).
  { unfold gtk_list_box_get_selected_rows.
    destruct (filter selected (list_box a)) as [|r rs] eqn:E.
    - symmetry. apply forallb_filter_id. apply forallb_forall. intros x Hx.
      destruct (selected x) eqn:S; [|reflexivity].
      assert (In x (filter selected (list_box a))) as I by (apply filter_In; auto).
      rewrite E in I. contradiction.
    - rewrite list_box_saved. reflexivity. }
  split; [exact L|]. split.
  { rewrite L. apply filter_length_split. }
  split.
  { destruct (gtk_list_box_get_selected_rows (list_box a));
      [lia | rewrite save_calls_saved; unfold save_calls; simpl; lia]. }
  split; [|exact remove_rows_filter].
  intros N Hw. rewrite L.
  destruct (gtk_list_box_get_selected_rows (list_box a)); [congruence|].
  rewrite tasks_txt_saved by exact Hw. reflexivity.
Qed.

(** Removing "a" and "c" from "a", "b", "c": "b" stays, one save. *)
Lemma remove_button_removes_selection_witness :
  exists a',
    on_remove_button_clicked three_tasks = Some a'
    /\ list_box a' = [row 1 "b" true false]
    /\ 3 = length (list_box a') + 2
    /\ save_calls a' = 0 + 1
    /\ (gtk_list_box_get_selected_rows (list_box three_tasks) <> [] ->
        write_ok (disk three_tasks) = true ->
        tasks_txt (disk a') = Some (serialize (list_box a')))
    /\ (forall refs lb,
          remove_rows refs lb
          = filter (fun x => negb (existsb (fun r => same_row r x) refs)) lb).
Proof. apply (remove_button_removes_selection three_tasks), wf_three_tasks. Defined.

(* ================================================================== *)
(** ** Toggling a task *)

Lemma map_toggle_other (row : nat) (lb : list list_box_row) :
  ~ In row (map row_id lb) ->
  map (fun x => if row_id x =? row then toggled x else x) lb = lb.
Proof.
  induction lb as [|x lb IH]; simpl; intros H; [reflexivity|].
  destruct (Nat.eqb_spec (row_id x) row) as [E|E]; [tauto|].
  f_equal. apply IH. tauto.
Qed.

Lemma tasks_toggle_twice (row : nat) (lb : list list_box_row) :
  tasks_of (map (fun x => if row_id x =? row then toggled x else x)
                (map (fun x => if row_id x =? row then toggled x else x) lb))
  = tasks_of lb.
Proof.
  unfold tasks_of. rewrite !map_map. apply map_ext. intros x.
  destruct (row_id x =? row) eqn:E; simpl; rewrite E; [|reflexivity].
  unfold task_of_row. simpl. rewrite negb_involutive. reflexivity.
Qed.

(** C9. A click on the check button of a row that is in the list box flips
    the completion flag of that row and of no other, changes no text and
    keeps the order; a second click on the same button gives back the task
    list there was before the first. *)
Theorem toggle_flips_one_task (a : app) (r : nat) :
  wf a -> has_row r a ->
  exists a1 a2 before x after,
    list_box a = before ++ x :: after
    /\ row_id x = r
    /\ click_check_button r a = Some a1
    /\ tasks a1 = tasks_of before
                  ++ mkTask (label_text x) (negb (active x)) :: tasks_of after
    /\ click_check_button r a1 = Some a2
    /\ tasks a2 = tasks a.
Proof.
  intros W H.
  pose proof (click_check_button_spec a r W H) as E1.
  set (a1 := saved (with_list_box a
                      (map (fun x => if row_id x =? r then toggled x else x)
                           (list_box a)))) in *.
  assert (W1 : wf a1) by (apply wf_saved, wf_toggle, W).
  assert (H1 : has_row r a1).
  { unfold has_row, a1. rewrite list_box_saved. simpl. rewrite map_map.
    rewrite (map_ext _ row_id); [exact H|].
    intros x. destruct (row_id x =? r); reflexivity. }
  pose proof (click_check_button_spec a1 r W1 H1) as E2.
  unfold has_row in H. apply in_map_iff in H. destruct H as (x & Ex & Hx).
  apply in_split in Hx. destruct Hx as (l1 & l2 & Hl).
  exists a1. eexists. exists l1, x, l2.
  split; [exact Hl|]. split; [exact Ex|]. split; [exact E1|].
  split; [|split; [exact E2|]].
  - pose proof (wf_ids a W) as D. rewrite Hl, map_app in D. simpl in D.
    pose proof (NoDup_remove_2 _ _ _ D) as N. rewrite Ex in N.
    unfold tasks, a1. rewrite list_box_saved. simpl. rewrite Hl, map_app. simpl.
    rewrite (map_toggle_other r l1), (map_toggle_other r l2)
      by (intros I; apply N, in_or_app; auto).
    apply Nat.eqb_eq in Ex. rewrite Ex.
    unfold tasks_of. rewrite map_app. reflexivity.
  - unfold tasks. rewrite list_box_saved. simpl. unfold a1.
    rewrite list_box_saved. simpl. apply tasks_toggle_twice.
Qed.

(** Toggling the second of "a", "b". *)
Lemma toggle_flips_one_task_witness :
  exists a1 a2 before x after,
    list_box two_tasks = before ++ x :: after
    /\ row_id x = 1
    /\ click_check_button 1 two_tasks = Some a1
    /\ tasks a1 = tasks_of before
                  ++ mkTask (label_text x) (negb (active x)) :: tasks_of after
    /\ click_check_button 1 a1 = Some a2
    /\ tasks a2 = tasks two_tasks.
Proof.
  apply (toggle_flips_one_task two_tasks 1); [exact wf_two_tasks|].
  right. left. reflexivity.
Defined.

Example toggle_second_task :
  option_map tasks (click_check_button 1 two_tasks)
  = Some [mkTask (bytes "a") false; mkTask (bytes "b") true].
Proof. reflexivity. Qed.

Example remove_a_and_c :
  option_map (fun a => (tasks a, save_calls a)) (on_remove_button_clicked three_tasks)
  = Some ([mkTask (bytes "b") true], 1).
Proof. reflexivity. Qed.

(* ================================================================== *)
(** ** The file as the program writes it *)

Lemma serialize_of_tasks (lb1 lb2 : list list_box_row) :
  tasks_of lb1 = tasks_of lb2 -> serialize lb1 = serialize lb2.
Proof.
  revert lb2. induction lb1 as [|x lb1 IH]; intros [|y lb2] H; try discriminate.
  - reflexivity.
  - simpl in H. injection H as Ht Ha Hr. unfold serialize. simpl.
    rewrite Ht, Ha. f_equal. apply IH, Hr.
Qed.

Lemma serialize_map_rows (f : list_box_row -> list_box_row) (lb : list list_box_row) :
  (forall x, label_text (f x) = label_text x) ->
  (forall x, active (f x) = active x) ->
  serialize (map f lb) = serialize lb.
Proof.
  intros Ht Ha. apply serialize_of_tasks. unfold tasks_of. rewrite map_map.
  apply map_ext. intros x. unfold task_of_row. rewrite Ht, Ha. reflexivity.
Qed.

Lemma disk_saved (a : app) :
  disk (saved a)
  = if write_ok (disk a)
    then mkFs (Some (serialize (list_box a))) (read_ok (disk a)) (write_ok (disk a))
    else disk a.
Proof.
  unfold saved. destruct (write_ok (disk a)) eqn:E; simpl; rewrite ?E; reflexivity.
Qed.

Lemma in_sync_saved (a : app) : write_ok (disk a) = true -> in_sync (saved a).
Proof.
  intros H. unfold in_sync. rewrite disk_saved, H, list_box_saved. reflexivity.
Qed.

Lemma write_ok_saved (a : app) : write_ok (disk (saved a)) = write_ok (disk a).
Proof. rewrite disk_saved. destruct (write_ok (disk a)) eqn:E; simpl; auto. Qed.

Lemma read_ok_saved (a : app) : read_ok (disk (saved a)) = read_ok (disk a).
Proof. rewrite disk_saved. destruct (write_ok (disk a)); reflexivity. Qed.

(** X1. When the file can be opened for writing, [save_tasks_to_file]
    replaces its content by one line per row of the list box, in list
    order: the digit 1 or 0 for the state of the check button, a [;], the
    text of the label, a newline.  It changes neither the rows nor the
    entry, and opens the file once. *)
Theorem save_writes_one_line_per_row (a : app) :
  wf a -> write_ok (disk a) = true ->
  exists a',
    save_tasks_to_file a = Some a'
    /\ tasks_txt (disk a') = Some (concat (map task_line (list_box a)))
    /\ list_box a' = list_box a
    /\ entry a' = entry a
    /\ save_calls a' = S (save_calls a).
Proof.
  intros W Hw. exists (saved a).
  split; [apply save_tasks_to_file_spec, (wf_ids a W)|].
  rewrite (tasks_txt_saved a Hw), (serialize_task_lines _ (wf_text a W)).
  rewrite list_box_saved, entry_saved, save_calls_saved. auto.
Qed.

Lemma save_writes_one_line_per_row_witness :
  exists a',
    save_tasks_to_file three_tasks = Some a'
    /\ tasks_txt (disk a')
       = Some (bytes "0;a" ++ [newline] ++ bytes "1;b" ++ [newline]
               ++ bytes "0;c" ++ [newline])
    /\ list_box a' = list_box three_tasks
    /\ entry a' = []
    /\ save_calls a' = 1.
Proof.
  apply (save_writes_one_line_per_row three_tasks);
    [exact wf_three_tasks | reflexivity].
Defined.

(** X2. Saving twice in a row writes the same file twice: after the second
    call of [save_tasks_to_file] the disk is what it was after the first,
    and the rows are still those saved. *)
Theorem save_twice_same_file (a : app) :
  wf a ->
  exists a1 a2,
    save_tasks_to_file a = Some a1
    /\ save_tasks_to_file a1 = Some a2
    /\ disk a2 = disk a1
    /\ list_box a2 = list_box a.
Proof.
  intros W. exists (saved a), (saved (saved a)).
  split; [apply save_tasks_to_file_spec, (wf_ids a W)|].
  split; [apply save_tasks_to_file_spec, (wf_ids _ (wf_saved a W))|].
  rewrite !list_box_saved. split; [|reflexivity].
  rewrite (disk_saved (saved a)), write_ok_saved, read_ok_saved, list_box_saved.
  rewrite (disk_saved a). destruct (write_ok (disk a)) eqn:E; [|reflexivity].
  reflexivity.
Qed.

Lemma save_twice_same_file_witness :
  exists a1 a2,
    save_tasks_to_file three_tasks = Some a1
    /\ save_tasks_to_file a1 = Some a2
    /\ disk a2 = disk a1
    /\ list_box a2 = list_box three_tasks.
Proof. apply (save_twice_same_file three_tasks), wf_three_tasks. Defined.

(* ================================================================== *)
(** ** The file as the program reads it *)

Lemma fgets_nonempty (n : nat) (stream line rest : chars) :
  1 < n -> fgets n stream = Some (line, rest) -> line <> [].
Proof.
  intros Hn. destruct stream as [|c s]; [discriminate|]. unfold fgets.
  destruct n as [|[|n]]; try lia. change (S (S n) - 1) with (S n). simpl.
  destruct (Ascii.eqb c newline); [intros H; injection H as <- _; discriminate|].
  destruct (read_line n s). intros H; injection H as <- _. discriminate.
Qed.

(** The lines of a file, put end to end, are the file; none is empty,
    none has more than 1023 characters, and a newline ends its line. *)
Lemma lines_of_partition (fuel : nat) (file : chars) (ls : list chars) :
  lines_of fuel file = Some ls ->
  concat ls = file
  /\ Forall (fun l => l <> [] /\ length l <= 1023 /\ newline_only_last l) ls.
Proof.
  revert file ls. induction fuel as [|fuel IH]; intros file ls; [discriminate|].
  cbn [lines_of]. destruct (fgets 1024 file) as [[line rest]|] eqn:E.
  - destruct (lines_of fuel rest) as [ls'|] eqn:E'; [|discriminate].
    intros H. injection H as <-. destruct (IH _ _ E') as [C F].
    split.
    + cbn [concat]. rewrite C. symmetry. apply (fgets_app _ _ _ _ E).
    + constructor; [|exact F]. split; [|split].
      * apply (fgets_nonempty 1024 file line rest); [lia | exact E].
      * apply (fgets_length _ _ _ _ E).
      * apply (fgets_newline_last _ _ _ _ E).
  - intros H. injection H as <-. destruct file; [|discriminate].
    split; [reflexivity | constructor].
Qed.

Lemma read_line_full (k : nat) (s : chars) :
  snd (read_line k s) <> [] ->
  (exists p, fst (read_line k s) = p ++ [newline]) \/ length (fst (read_line k s)) = k.
Proof.
  revert s. induction k as [|k IH]; intros s H; [right; destruct s; reflexivity|].
  destruct s as [|c s]; [simpl in H; congruence|]. simpl in H |- *.
  destruct (Ascii.eqb c newline) eqn:E.
  - left. exists []. apply Ascii.eqb_eq in E. subst c. reflexivity.
  - specialize (IH s). destruct (read_line k s) as [l r]. simpl in *.
    destruct (IH H) as [[p ->]|L].
    + left. exists (c :: p). reflexivity.
    + right. rewrite L. reflexivity.
Qed.

Lemma fgets_full (n : nat) (stream line rest : chars) :
  fgets n stream = Some (line, rest) -> rest <> [] ->
  (exists p, line = p ++ [newline]) \/ length line = n - 1.
Proof.
  destruct stream as [|c s]; [discriminate|]. unfold fgets. intros H R.
  injection H as H. pose proof (read_line_full (n - 1) (c :: s)) as F.
  rewrite H in F. apply F, R.
Qed.

(** [fgets] stops early only at a newline or at the end of the file. *)
Lemma lines_of_full (fuel : nat) (file : chars) (ls : list chars) :
  lines_of fuel file = Some ls -> full_but_last ls.
Proof.
  revert file ls. induction fuel as [|fuel IH]; intros file ls; [discriminate|].
  cbn [lines_of]. destruct (fgets 1024 file) as [[line rest]|] eqn:E.
  - destruct (lines_of fuel rest) as [ls'|] eqn:E'; [|discriminate].
    intros H. injection H as <-. split; [|apply (IH _ _ E')].
    intros N. assert (R : rest <> []).
    { intros ->. destruct fuel; [discriminate|]. simpl in E'.
      injection E' as <-. congruence. }
    apply (fgets_full 1024 file line rest E R).
  - intros H. injection H as <-. exact I.
Qed.

Lemma tasks_of_lines (ls : list chars) :
  Forall (fun l => l <> [] /\ length l <= 1023 /\ newline_only_last l) ls ->
  map (fun l => mkTask (fst (parse_line l)) (snd (parse_line l))) ls
  = map (fun l => line_spec (cstr l)) ls.
Proof.
  intros F. apply map_ext_in. intros l Hl. rewrite Forall_forall in F.
  destruct (F l Hl) as (_ & _ & N). rewrite (parse_line_spec l N). simpl.
  destruct (line_spec (cstr l)); reflexivity.
Qed.

(** X3. Whatever [tasks.txt] contains, when it can be opened
    [load_tasks_from_file] returns, having cut the file into lines that,
    put end to end, are the whole file: no character is skipped or read
    twice.  A line ends after its first newline or, failing that, after
    1023 characters or at the end of the file: no line is empty, none has
    a newline before its end, and every line but the last ends with a
    newline or has 1023 characters.  The function adds one task per line,
    in order, after the tasks the list had, each read by the line format;
    it leaves the file and the entry alone and logs no warning. *)
Theorem load_reads_every_character (a : app) (file : chars) :
  fopen_r (disk a) = Some file ->
  exists ls a',
    load_tasks_from_file a = Some a'
    /\ concat ls = file
    /\ Forall (fun l => l <> [] /\ length l <= 1023 /\ newline_only_last l) ls
    /\ full_but_last ls
    /\ tasks a' = tasks a ++ map (fun l => line_spec (cstr l)) ls
    /\ disk a' = disk a
    /\ entry a' = entry a
    /\ trace a' = trace a ++ [Fopen Read_mode true].
Proof.
  intros H. pose proof (load_tasks_from_file_spec a) as L. rewrite H in L.
  destruct L as (ls & E & L). destruct (lines_of_partition _ _ _ E) as [C F].
  exists ls. eexists. split; [exact L|]. split; [exact C|]. split; [exact F|].
  split; [apply (lines_of_full _ _ _ E)|].
  destruct (frame_fold_load_line ls (emit a [Fopen Read_mode true])) as (D & T & N).
  rewrite tasks_fold_load_line, (tasks_of_lines ls F), D, T, N. auto.
Qed.

Lemma load_reads_every_character_witness :
  exists ls a',
    load_tasks_from_file (fresh (mkFs (Some odd_file) true true)) = Some a'
    /\ concat ls = odd_file
    /\ Forall (fun l => l <> [] /\ length l <= 1023 /\ newline_only_last l) ls
    /\ full_but_last ls
    /\ tasks a' = [] ++ map (fun l => line_spec (cstr l)) ls
    /\ disk a' = mkFs (Some odd_file) true true
    /\ entry a' = []
    /\ trace a' = [] ++ [Fopen Read_mode true].
Proof.
  apply (load_reads_every_character (fresh (mkFs (Some odd_file) true true)) odd_file).
  reflexivity.
Defined.

Lemma activate_serialized (fs : filesystem) (lb : list list_box_row) :
  fopen_r fs = Some (serialize lb) -> Forall fits lb ->
  exists a2,
    activate fs = Some a2 /\ tasks a2 = tasks_of lb /\ disk a2 = fs /\ wf a2.
Proof.
  intros E F. unfold activate.
  pose proof (load_tasks_from_file_spec (fresh fs)) as L.
  change (disk (fresh fs)) with fs in L. rewrite E in L. destruct L as (ls & Els & L).
  rewrite (lines_of_serialize _ F) in Els by lia. injection Els as <-.
  eexists. split; [exact L|]. split; [|split].
  - rewrite tasks_fold_load_line. simpl. rewrite map_map.
    unfold tasks_of. apply map_ext_in. intros r Hr.
    rewrite Forall_forall in F. destruct (F r Hr) as (H0 & Hn & _).
    rewrite (parse_line_fprintf_task _ _ H0 Hn). reflexivity.
  - destruct (frame_fold_load_line
                (map (fun r => fprintf_task (active r) (label_text r)) lb)
                (emit (fresh fs) [Fopen Read_mode true])) as (D & _).
    rewrite D. reflexivity.
  - apply wf_fold_load_line, wf_emit, wf_fresh_state.
Qed.

(** X4. If the file holds what the program last saved and every text is
    free of newlines and at most 1020 characters long, starting the program
    again loads exactly the tasks of the list, texts that contain [;]
    included: only the first [;] of a line is a separator. *)
Theorem restart_restores_tasks (a : app) :
  in_sync a -> read_ok (disk a) = true -> Forall fits (list_box a) ->
  exists a2, activate (disk a) = Some a2 /\ tasks a2 = tasks a.
Proof.
  intros S R F.
  destruct (activate_serialized (disk a) (list_box a)) as (a2 & E & T & _).
  - unfold fopen_r. rewrite R. exact S.
  - exact F.
  - exists a2. auto.
Qed.

Lemma restart_restores_tasks_witness :
  exists a2,
    activate (disk synced_tasks) = Some a2
    /\ tasks a2 = [mkTask (bytes "a;b") false; mkTask (bytes "c") true].
Proof.
  apply (restart_restores_tasks synced_tasks); [reflexivity | reflexivity |].
  repeat constructor; vm_compute; intuition (try discriminate; try lia).
Defined.

(** X5. Saving, starting the program again and closing its window leaves
    the file byte for byte as it was saved, when every text is free of
    newlines and at most 1020 characters long. *)
Theorem restart_and_close_keep_file (a : app) :
  wf a -> write_ok (disk a) = true -> read_ok (disk a) = true ->
  Forall fits (list_box a) ->
  exists a1 a2 a3,
    save_tasks_to_file a = Some a1
    /\ activate (disk a1) = Some a2
    /\ on_window_destroy a2 = Some a3
    /\ disk a3 = disk a1.
Proof.
  intros W Hw Hr F. exists (saved a).
  destruct (activate_serialized (disk (saved a)) (list_box a)) as (a2 & E & T & D & W2).
  { unfold fopen_r. rewrite read_ok_saved, Hr. apply tasks_txt_saved, Hw. }
  { exact F. }
  exists a2, (saved a2).
  split; [apply save_tasks_to_file_spec, (wf_ids a W)|]. split; [exact E|].
  split; [apply save_tasks_to_file_spec, (wf_ids a2 W2)|].
  rewrite (disk_saved a2), D, write_ok_saved, read_ok_saved, Hw.
  rewrite (serialize_of_tasks (list_box a2) (list_box a) T).
  rewrite (disk_saved a), Hw. reflexivity.
Qed.

Lemma restart_and_close_keep_file_witness :
  exists a1 a2 a3,
    save_tasks_to_file three_tasks = Some a1
    /\ activate (disk a1) = Some a2
    /\ on_window_destroy a2 = Some a3
    /\ disk a3 = disk a1.
Proof.
  apply (restart_and_close_keep_file three_tasks);
    [exact wf_three_tasks | reflexivity | reflexivity |].
  repeat constructor; vm_compute; intuition (try discriminate; try lia).
Defined.

(* ================================================================== *)
(** ** What an action does before it saves *)

Lemma styled_load_line (a : app) (line : chars) :
  Forall styled (list_box a) -> Forall styled (list_box (load_line a line)).
Proof.
  intros H. rewrite load_line_unfold. simpl. apply Forall_app. split; [exact H|].
  repeat constructor.
Qed.

Lemma styled_fold_load_line (ls : list chars) (a : app) :
  Forall styled (list_box a) -> Forall styled (list_box (fold_left load_line ls a)).
Proof.
  revert a. induction ls as [|l ls IH]; intros a H; simpl; [exact H|].
  apply IH, styled_load_line, H.
Qed.

Lemma Forall_filter_rows (P : list_box_row -> Prop) (f : list_box_row -> bool)
      (lb : list list_box_row) :
  Forall P lb -> Forall P (filter f lb).
Proof.
  intros H. apply Forall_forall. intros x Hx. apply filter_In in Hx.
  rewrite Forall_forall in H. apply H. tauto.
Qed.

Lemma save_calls_emit_read (a : app) (ok : bool) (evs : list event) :
  forallb (fun e => negb (is_save e)) evs = true ->
  save_calls (emit a evs) = save_calls a.
Proof.
  intros H. unfold save_calls, emit. simpl. rewrite filter_app, length_app.
  replace (filter is_save evs) with (@nil event); [simpl; lia|].
  symmetry. induction evs as [|e evs IH]; [reflexivity|].
  simpl in H |- *. apply andb_prop in H. destruct H as [H1 H2].
  destruct (is_save e); [discriminate | apply IH, H2].
Qed.

(** Every action builds a state [b] from widgets alone, without touching
    the disk, and returns either [b] or [b] saved. *)
Lemma step_shape (act : action) (a : app) :
  wf a ->
  exists b,
    wf b
    /\ disk b = disk a
    /\ save_calls b = save_calls a
    /\ (Forall styled (list_box a) -> Forall styled (list_box b))
    /\ ((step act a = Some b /\ (act = Load_file \/ tasks b = tasks a))
        \/ (step act a = Some (saved b) /\ act <> Load_file)).
Proof.
  intros W. destruct act as [|s| |row|row on| |]; simpl.
  - pose proof (load_tasks_from_file_spec a) as L.
    destruct (fopen_r (disk a)) as [file|].
    + destruct L as (ls & _ & L). eexists. split; [|split; [|split; [|split]]].
      5: { left. split; [exact L | left; reflexivity]. }
      * apply wf_fold_load_line, wf_emit, W.
      * apply (proj1 (frame_fold_load_line ls (emit a [Fopen Read_mode true]))).
      * unfold save_calls.
        destruct (frame_fold_load_line ls (emit a [Fopen Read_mode true])) as (_ & T & _).
        rewrite T. apply (save_calls_emit_read a true). reflexivity.
      * intros H. apply styled_fold_load_line. exact H.
    + eexists. split; [|split; [|split; [|split]]].
      5: { left. split; [exact L | left; reflexivity]. }
      * apply wf_emit, W.
      * reflexivity.
      * apply (save_calls_emit_read a true). reflexivity.
      * intros H. exact H.
  - exists (with_entry a (cstr s)). split; [|split; [|split; [|split]]]; auto.
    apply wf_with_entry; [exact W | apply cstr_no_NUL].
  - destruct (Nat.ltb_spec 0 (strlen (entry a))) as [H|H].
    + pose proof (wf_new_row a (entry a) false [] W (fun f => f)) as W'.
      rewrite (cstr_fixed _ (wf_entry a W)) in W'.
      eexists. split; [exact W'|]. split; [reflexivity|]. split; [reflexivity|].
      split.
      * simpl. intros S. apply Forall_app. split; [exact S | repeat constructor].
      * right. split; [apply on_add_button_clicked_spec; assumption | discriminate].
    + exists a. split; [exact W|]. split; [reflexivity|]. split; [reflexivity|].
      split; [auto|]. left. split; [|right; reflexivity].
      unfold on_add_button_clicked.
      destruct (Nat.ltb_spec 0 (strlen (entry a))); [lia | reflexivity].
  - destruct (existsb (fun x => row_id x =? row) (list_box a)) eqn:E.
    + eexists. split; [apply (wf_toggle a row W)|].
      split; [reflexivity|]. split; [reflexivity|]. split.
      * simpl. intros S. apply Forall_map. eapply Forall_impl; [|exact S].
        intros x Hx. destruct (row_id x =? row); [reflexivity | exact Hx].
      * right. split; [|discriminate].
        apply click_check_button_spec; [exact W | apply has_row_existsb, E].
    + exists a. split; [exact W|]. split; [reflexivity|]. split; [reflexivity|].
      split; [auto|]. left. split; [|right; reflexivity].
      unfold click_check_button. rewrite E. reflexivity.
  - exists (select_row row on a). split; [|split; [|split; [|split]]].
    + unfold select_row.
      apply wf_map_rows; [| |exact W]; intros x; destruct (row_id x =? row); reflexivity.
    + reflexivity.
    + reflexivity.
    + simpl. intros S. apply Forall_map. eapply Forall_impl; [|exact S].
      intros x Hx. destruct (row_id x =? row); exact Hx.
    + left. split; [reflexivity|]. right. unfold tasks, select_row, tasks_of. simpl.
      rewrite map_map. apply map_ext. intros x.
      destruct (row_id x =? row); reflexivity.
  - pose proof (on_remove_button_clicked_spec a W) as R.
    destruct (gtk_list_box_get_selected_rows (list_box a)).
    + exists a. split; [exact W|]. split; [reflexivity|]. split; [reflexivity|].
      split; [auto|]. left. split; [exact R | right; reflexivity].
    + exists (with_list_box a (filter (fun x => negb (selected x)) (list_box a))).
      split; [apply (wf_filter_rows a _ W)|].
      split; [reflexivity|]. split; [reflexivity|]. split.
      * simpl. apply Forall_filter_rows.
      * right. split; [exact R | discriminate].
  - exists a. split; [exact W|]. split; [reflexivity|]. split; [reflexivity|].
    split; [auto|]. right. split; [|discriminate].
    apply save_tasks_to_file_spec, (wf_ids a W).
Qed.

Lemma run_styled (acts : list action) (a a' : app) :
  wf a -> Forall styled (list_box a) -> run acts a = Some a' ->
  Forall styled (list_box a').
Proof.
  revert a. induction acts as [|act acts IH]; intros a W S R; simpl in R.
  - injection R as <-. exact S.
  - destruct (step_shape act a W) as (b & Wb & _ & _ & Sb & [[E _]|[E _]]);
      rewrite E in R.
    + apply (IH b Wb (Sb S) R).
    + apply (IH (saved b) (wf_saved b Wb)); [|exact R].
      rewrite list_box_saved. exact (Sb S).
Qed.

(** X6. At every moment of a session, from start-up on and whatever the
    user does, the label of each task carries the CSS class "completed"
    exactly when its check button is active: [create_list_item] sets both
    from the same flag and [on_check_button_toggled] realigns the class
    after each toggle. *)
Theorem label_style_follows_check_button (fs : filesystem) (acts : list action) (a : app) :
  run (Load_file :: acts) (fresh fs) = Some a ->
  Forall styled (list_box a).
Proof.
  apply run_styled; [apply wf_fresh_state | constructor].
Qed.

Lemma label_style_follows_check_button_witness :
  Forall styled
    [mkRow 0 [] false false false; mkRow 1 (bytes "a;b") false false false;
     mkRow 2 (bytes "x") false false false].
Proof.
  apply (label_style_follows_check_button (mkFs (Some odd_file) true true)
           [Type_text (bytes "x"); Click_add; Click_check 1]
           (mkApp [mkRow 0 [] false false false;
                   mkRow 1 (bytes "a;b") false false false;
                   mkRow 2 (bytes "x") false false false]
                  [] 3
                  (mkFs (Some (bytes "0;" ++ [newline] ++ bytes "0;a;b" ++ [newline]
                               ++ bytes "0;x" ++ [newline])) true true)
                  [Fopen Read_mode true; Fopen Write_mode true; Fopen Write_mode true])).
  reflexivity.
Defined.

(** X7. From start-up on, whatever the file contains and whatever the user
    does, every callback returns: the loops of [save_tasks_to_file] and
    [load_tasks_from_file] end, and in the state reached the rows have
    distinct addresses below the next fresh one and texts without a zero
    character. *)
Theorem every_callback_returns (fs : filesystem) (acts : list action) :
  exists a,
    run (Load_file :: acts) (fresh fs) = Some a
    /\ NoDup (map row_id (list_box a))
    /\ Forall (fun r => row_id r < next_widget a) (list_box a)
    /\ Forall (fun r => no_NUL (label_text r)) (list_box a).
Proof.
  destruct (run_wf (Load_file :: acts) (fresh fs) (wf_fresh_state fs)) as (a & R & W).
  exists a. split; [exact R|]. destruct W as [H1 H2 H3 _]. auto.
Qed.

(* ================================================================== *)
(** ** Disk and list box during a session *)

Lemma step_in_sync (act : action) (a a' : app) :
  wf a -> write_ok (disk a) = true -> in_sync a -> is_load act = false ->
  step act a = Some a' ->
  wf a' /\ write_ok (disk a') = true /\ read_ok (disk a') = read_ok (disk a)
  /\ in_sync a'.
Proof.
  intros W Hw S N E.
  destruct (step_shape act a W) as (b & Wb & D & _ & _ & [[E' T]|[E' _]]);
    rewrite E' in E; injection E as <-.
  - destruct T as [->|T]; [discriminate|].
    split; [exact Wb|]. rewrite D. split; [exact Hw|]. split; [reflexivity|].
    unfold in_sync. rewrite D, (serialize_of_tasks _ _ T). exact S.
  - split; [apply wf_saved, Wb|]. rewrite write_ok_saved, read_ok_saved, D.
    split; [exact Hw|]. split; [reflexivity|]. apply in_sync_saved. rewrite D. exact Hw.
Qed.

Lemma run_in_sync (acts : list action) (a a' : app) :
  wf a -> write_ok (disk a) = true -> in_sync a ->
  forallb (fun act => negb (is_load act)) acts = true ->
  run acts a = Some a' ->
  read_ok (disk a') = read_ok (disk a) /\ in_sync a'.
Proof.
  revert a. induction acts as [|act acts IH]; intros a W Hw S N R; simpl in R.
  - injection R as <-. auto.
  - simpl in N. apply andb_prop in N. destruct N as [N1 N2].
    apply negb_true_iff in N1.
    destruct (step_wf act a W) as (a1 & E & _). rewrite E in R.
    destruct (step_in_sync act a a1 W Hw S N1 E) as (W1 & Hw1 & Hr1 & S1).
    rewrite <- Hr1. apply (IH a1 W1 Hw1 S1 N2 R).
Qed.

(** X8. If the file can be written and holds what the program would save,
    it still does after any sequence of user actions (typing, adding,
    toggling, selecting, removing, closing): every callback that changes a
    task saves before it returns, and those that do not save change no
    task. *)
Theorem file_follows_list (acts : list action) (a a' : app) :
  wf a -> write_ok (disk a) = true -> in_sync a ->
  forallb (fun act => negb (is_load act)) acts = true ->
  run acts a = Some a' ->
  in_sync a'.
Proof. intros W Hw S N R. apply (run_in_sync acts a a' W Hw S N R). Qed.

Lemma file_follows_list_witness :
  exists a',
    run [Click_check 0; Type_text (bytes "d"); Click_add; Click_remove] synced_tasks
    = Some a'
    /\ tasks a' = [mkTask (bytes "a;b") true; mkTask (bytes "d") false]
    /\ in_sync a'.
Proof.
  eexists. split; [vm_compute; reflexivity|]. split; [reflexivity|].
  apply (file_follows_list
           [Click_check 0; Type_text (bytes "d"); Click_add; Click_remove]
           synced_tasks);
    [solve_wf | reflexivity | reflexivity | reflexivity | reflexivity].
Defined.

Lemma step_disk (act : action) (a a' : app) :
  wf a -> step act a = Some a' ->
  save_calls a' <= S (save_calls a)
  /\ (disk a' = disk a
      \/ (write_ok (disk a) = true
          /\ save_calls a' = S (save_calls a)
          /\ disk a' = mkFs (Some (serialize (list_box a'))) (read_ok (disk a)) true)).
Proof.
  intros W E.
  destruct (step_shape act a W) as (b & Wb & D & C & _ & [[E' _]|[E' _]]);
    rewrite E' in E; injection E as <-.
  - rewrite C, D. split; [lia | left; reflexivity].
  - rewrite save_calls_saved, C, disk_saved, list_box_saved, D.
    split; [lia|]. destruct (write_ok (disk a)) eqn:Hw; [right | left]; auto.
Qed.

(** X9. An action opens the file for writing at most once, and the file
    changes only when it does so successfully: the new content is then the
    list as the action leaves it. *)
Theorem file_changes_only_by_save (act : action) (a a' : app) :
  wf a -> step act a = Some a' ->
  save_calls a' <= S (save_calls a)
  /\ (disk a' = disk a
      \/ (write_ok (disk a) = true
          /\ save_calls a' = S (save_calls a)
          /\ disk a' = mkFs (Some (serialize (list_box a'))) (read_ok (disk a)) true)).
Proof. apply step_disk. Qed.

Lemma file_changes_only_by_save_witness :
  save_calls (saved (with_list_box three_tasks [row 1 "b" true false])) <= 1
  /\ (disk (saved (with_list_box three_tasks [row 1 "b" true false])) = writable_disk
      \/ (true = true
          /\ save_calls (saved (with_list_box three_tasks [row 1 "b" true false])) = 1
          /\ disk (saved (with_list_box three_tasks [row 1 "b" true false]))
             = mkFs (Some (serialize [row 1 "b" true false])) true true)).
Proof.
  apply (file_changes_only_by_save Click_remove three_tasks
           (saved (with_list_box three_tasks [row 1 "b" true false])));
    [exact wf_three_tasks | reflexivity].
Defined.

(** X10. When the file cannot be opened for writing, nothing a session
    does changes the disk: every save attempt ends at the failed [fopen]. *)
Theorem read_only_disk_is_untouched (acts : list action) (a a' : app) :
  wf a -> write_ok (disk a) = false -> run acts a = Some a' ->
  disk a' = disk a.
Proof.
  revert a. induction acts as [|act acts IH]; intros a W Hw R; simpl in R.
  - injection R as <-. reflexivity.
  - destruct (step_wf act a W) as (a1 & E & W1). rewrite E in R.
    assert (D : disk a1 = disk a).
    { destruct (step_disk act a a1 W E) as (_ & [D|(H & _)]); [exact D | congruence]. }
    rewrite <- D. apply (IH a1 W1); [rewrite D; exact Hw | exact R].
Qed.

Lemma read_only_disk_is_untouched_witness :
  exists a',
    run [Load_file; Type_text (bytes "d"); Click_add; Click_check 0; Close_window]
        (fresh read_only_disk) = Some a'
    /\ tasks a' = [mkTask (bytes "d") true]
    /\ disk a' = read_only_disk.
Proof.
  eexists. split; [vm_compute; reflexivity|]. split; [reflexivity|].
  apply (read_only_disk_is_untouched
           [Load_file; Type_text (bytes "d"); Click_add; Click_check 0; Close_window]
           (fresh read_only_disk));
    [apply wf_fresh_state | reflexivity | reflexivity].
Defined.

(* ================================================================== *)
(** ** Clicking twice *)

Lemma no_selection_left (lb : list list_box_row) :
  gtk_list_box_get_selected_rows (filter (fun x => negb (selected x)) lb) = [].
Proof.
  unfold gtk_list_box_get_selected_rows. rewrite filter_twice.
  induction lb as [|x lb IH]; simpl; [reflexivity|].
  destruct (selected x); simpl; exact IH.
Qed.

(** X11. A second click on "Remove Selected" does nothing: the rows that
    were selected are gone, no row is selected any more, and the callback
    returns the state unchanged, without saving. *)
Theorem remove_twice_removes_once (a : app) :
  wf a ->
  exists a1,
    on_remove_button_clicked a = Some a1
    /\ gtk_list_box_get_selected_rows (list_box a1) = []
    /\ on_remove_button_clicked a1 = Some a1.
Proof.
  intros W. eexists. split; [apply on_remove_button_clicked_spec, W|].
  assert (N : gtk_list_box_get_selected_rows
                (list_box
                   match gtk_list_box_get_selected_rows (list_box a) with
                   | [] => a
                   | _ => saved (with_list_box a
                                   (filter (fun x => negb (selected x)) (list_box a)))
                   end) = []).
  { destruct (gtk_list_box_get_selected_rows (list_box a)) eqn:E; [exact E|].
    rewrite list_box_saved. apply no_selection_left. }
  split; [exact N|]. unfold on_remove_button_clicked. rewrite N. reflexivity.
Qed.

Lemma remove_twice_removes_once_witness :
  exists a1,
    on_remove_button_clicked three_tasks = Some a1
    /\ gtk_list_box_get_selected_rows (list_box a1) = []
    /\ on_remove_button_clicked a1 = Some a1.
Proof. apply (remove_twice_removes_once three_tasks), wf_three_tasks. Defined.

(** X12. A second click on "Add" right after the first adds nothing:
    [on_add_button_clicked] clears the entry before it returns, so the
    second call finds an empty text and returns the state unchanged. *)
Theorem add_twice_adds_once (a : app) :
  wf a ->
  exists a1,
    on_add_button_clicked a = Some a1
    /\ entry a1 = []
    /\ on_add_button_clicked a1 = Some a1.
Proof.
  intros W. destruct (Nat.ltb_spec 0 (strlen (entry a))) as [H|H].
  - eexists. split; [apply on_add_button_clicked_spec; assumption|].
    rewrite entry_saved. simpl. split; [reflexivity|].
    unfold on_add_button_clicked. rewrite entry_saved. reflexivity.
  - assert (E : entry a = []).
    { apply strlen_zero; [apply (wf_entry a W) | lia]. }
    exists a. unfold on_add_button_clicked. rewrite E. auto.
Qed.

Lemma add_twice_adds_once_witness :
  exists a1,
    on_add_button_clicked milk_entry = Some a1
    /\ entry a1 = []
    /\ on_add_button_clicked a1 = Some a1.
Proof. apply (add_twice_adds_once milk_entry), wf_milk_entry. Defined.

(* ================================================================== *)
(** ** A newline inside a text *)

Lemma newline_only_last_snoc (t : chars) :
  ~ In newline t -> newline_only_last (t ++ [newline]).
Proof.
  induction t as [|c t IH]; simpl; intros H; [auto|].
  split; [intros E; tauto | apply IH; tauto].
Qed.

Lemma fprintf_task_newline (c : bool) (t1 t2 : chars) :
  no_NUL t1 -> no_NUL t2 ->
  fprintf_task c (t1 ++ newline :: t2) = fprintf_task c t1 ++ (t2 ++ [newline]).
Proof.
  intros H1 H2. rewrite (fprintf_task_shape c t1 H1).
  rewrite fprintf_task_shape.
  - cbn [List.app]. rewrite <- !app_assoc. reflexivity.
  - apply no_NUL_app; [exact H1|]. intros [E|E]; [discriminate | exact (H2 E)].
Qed.

Lemma lines_of_two (c : bool) (t1 t2 : chars) (fuel : nat) :
  no_NUL t1 -> ~ In newline t1 -> length t1 <= 1020 ->
  ~ In newline t2 -> length t2 <= 1021 ->
  lines_of (S (S (S fuel))) (fprintf_task c t1 ++ (t2 ++ [newline]))
  = Some [fprintf_task c t1; t2 ++ [newline]].
Proof.
  intros H0 Hn1 Hl1 Hn2 Hl2. cbn [lines_of].
  rewrite (fgets_fprintf_task c t1 _ H0 Hn1 Hl1).
  rewrite (fgets_whole 1024 t2 [] Hn2) by (change (1024 - 1) with 1023; lia).
  reflexivity.
Qed.

(** X13. A text with a newline in it does not survive a restart: the line
    format has no escape, so a task whose text is [t1], a newline, [t2] is
    saved as two lines and loaded as two tasks: [t1] with the flag of the
    task, and whatever the line format reads in [t2]. *)
Theorem newline_in_text_splits_task (a : app) (r : list_box_row) (t1 t2 : chars) :
  wf a -> write_ok (disk a) = true -> read_ok (disk a) = true ->
  list_box a = [r] -> label_text r = t1 ++ newline :: t2 ->
  ~ In newline t1 -> ~ In newline t2 -> length t1 <= 1020 -> length t2 <= 1021 ->
  exists a1 a2,
    save_tasks_to_file a = Some a1
    /\ activate (disk a1) = Some a2
    /\ tasks a2 = [mkTask t1 (active r); line_spec (t2 ++ [newline])].
Proof.
  intros W Hw Hr Hlb Ht Hn1 Hn2 Hl1 Hl2.
  pose proof (wf_text a W) as T. rewrite Hlb in T.
  inversion T as [|? ? T0 _]; subst. rewrite Ht in T0.
  assert (N1 : no_NUL t1) by (intros I; apply T0, in_or_app; auto).
  assert (N2 : no_NUL t2) by (intros I; apply T0, in_or_app; right; right; exact I).
  pose proof (load_tasks_from_file_spec (fresh (disk (saved a)))) as L.
  change (disk (fresh (disk (saved a)))) with (disk (saved a)) in L.
  assert (E : fopen_r (disk (saved a))
              = Some (fprintf_task (active r) t1 ++ (t2 ++ [newline]))).
  { unfold fopen_r. rewrite read_ok_saved, Hr, (tasks_txt_saved a Hw), Hlb.
    unfold serialize. cbn [flat_map]. rewrite app_nil_r, Ht.
    rewrite (fprintf_task_newline _ _ _ N1 N2). reflexivity. }
  rewrite E in L. destruct L as (ls & Els & L).
  assert (F : 3 <= length (fprintf_task (active r) t1 ++ (t2 ++ [newline]))).
  { rewrite (fprintf_task_shape _ _ N1), !length_app. cbn [length]. lia. }
  destruct (length (fprintf_task (active r) t1 ++ (t2 ++ [newline])))
    as [|[|fuel]]; try lia.
  rewrite (lines_of_two (active r) t1 t2 fuel N1 Hn1 Hl1 Hn2 Hl2) in Els.
  injection Els as <-.
  exists (saved a). eexists.
  split; [apply save_tasks_to_file_spec, (wf_ids a W)|]. split; [exact L|].
  rewrite tasks_fold_load_line. cbn [map tasks fresh emit list_box tasks_of List.app].
  rewrite (parse_line_fprintf_task _ _ N1 Hn1).
  rewrite (parse_line_spec _ (newline_only_last_snoc t2 Hn2)).
  rewrite (cstr_fixed (t2 ++ [newline]))
    by (apply no_NUL_app; [exact N2 | intros [X|[]]; discriminate]).
  cbn [fst snd]. destruct (line_spec (t2 ++ [newline])); reflexivity.
Qed.

Lemma newline_in_text_splits_task_witness :
  exists a1 a2,
    save_tasks_to_file two_line_task = Some a1
    /\ activate (disk a1) = Some a2
    /\ tasks a2 = [mkTask (bytes "a") true; line_spec (bytes "b" ++ [newline])].
Proof.
  apply (newline_in_text_splits_task two_line_task
           (mkRow 0 (bytes "a" ++ [newline] ++ bytes "b") true true false)
           (bytes "a") (bytes "b"));
    try reflexivity; try (simpl; lia);
    try (vm_compute; intuition discriminate).
  solve_wf.
Defined.

(* ================================================================== *)
(** ** From one session to the next *)

(** X14. What the list shows at the end of a session is what the next
    start shows: from a state whose file is writable, readable and up to
    date, after any user actions, if the texts then in the list are free
    of newlines and at most 1020 characters long, starting the program
    again on the disk as the session left it loads exactly those tasks. *)
Theorem session_survives_restart (acts : list action) (a a' : app) :
  wf a -> write_ok (disk a) = true -> read_ok (disk a) = true -> in_sync a ->
  forallb (fun act => negb (is_load act)) acts = true ->
  run acts a = Some a' ->
  Forall fits (list_box a') ->
  exists a2, activate (disk a') = Some a2 /\ tasks a2 = tasks a'.
Proof.
  intros W Hw Hr S N R F.
  destruct (run_in_sync acts a a' W Hw S N R) as [Hr' S'].
  destruct (activate_serialized (disk a') (list_box a')) as (a2 & E & T & _).
  - unfold fopen_r. rewrite Hr', Hr. exact S'.
  - exact F.
  - exists a2. auto.
Qed.

Lemma session_survives_restart_witness :
  exists a' a2,
    run [Click_check 0; Type_text (bytes "d"); Click_add; Click_remove] synced_tasks
    = Some a'
    /\ activate (disk a') = Some a2
    /\ tasks a2 = tasks a'
    /\ tasks a' = [mkTask (bytes "a;b") true; mkTask (bytes "d") false].
Proof.
  eexists.
  assert (R : run [Click_check 0; Type_text (bytes "d"); Click_add; Click_remove]
                  synced_tasks
              = Some (mkApp [mkRow 0 (bytes "a;b") true true false;
                             mkRow 2 (bytes "d") false false false]
                            [] 3
                            (mkFs (Some (bytes "1;a;b" ++ [newline]
                                         ++ bytes "0;d" ++ [newline])) true true)
                            [Fopen Write_mode true; Fopen Write_mode true;
                             Fopen Write_mode true]))
    by reflexivity.
  destruct (session_survives_restart
              [Click_check 0; Type_text (bytes "d"); Click_add; Click_remove]
              synced_tasks _ ltac:(solve_wf) eq_refl eq_refl eq_refl eq_refl R)
    as (a2 & E & T).
  - repeat constructor; vm_compute; intuition (try discriminate; try lia).
  - exists a2. split; [exact R|]. split; [exact E|]. split; [exact T | reflexivity].
Defined.

(** X15. A file that exists but cannot be opened for reading is treated as
    a first run, and its content is lost at the first change: the program
    starts with an empty list, and adding a task then overwrites the file
    with the line of that task alone. *)
Theorem unreadable_file_is_overwritten (fs : filesystem) (old t : chars) :
  tasks_txt fs = Some old -> read_ok fs = false -> write_ok fs = true ->
  no_NUL t -> t <> [] ->
  exists a',
    run [Load_file; Type_text t; Click_add] (fresh fs) = Some a'
    /\ tasks a' = [mkTask t false]
    /\ tasks_txt (disk a') = Some (task_line (mkRow 0 t false false false)).
Proof.
  intros Ho Hr Hw N0 Ne. cbn [run step].
  unfold load_tasks_from_file, fopen_r. cbn [fresh disk]. rewrite Hr.
  rewrite (cstr_fixed t N0).
  set (a0 := with_entry _ t).
  assert (W0 : wf a0) by (apply wf_with_entry; [apply wf_emit, wf_fresh_state | exact N0]).
  rewrite (on_add_button_clicked_spec a0 W0 (strlen_nonempty t N0 Ne)).
  eexists. split; [reflexivity|].
  unfold tasks. rewrite list_box_saved. split; [reflexivity|].
  rewrite tasks_txt_saved by exact Hw. cbn [list_box a0 with_entry emit fresh List.app].
  rewrite serialize_task_lines by (repeat constructor; exact N0).
  cbn [map concat]. rewrite app_nil_r. reflexivity.
Qed.

Lemma unreadable_file_is_overwritten_witness :
  exists a',
    run [Load_file; Type_text (bytes "buy milk"); Click_add]
        (fresh (mkFs (Some report_file) false true)) = Some a'
    /\ tasks a' = [mkTask (bytes "buy milk") false]
    /\ tasks_txt (disk a')
       = Some (task_line (mkRow 0 (bytes "buy milk") false false false)).
Proof.
  apply (unreadable_file_is_overwritten (mkFs (Some report_file) false true)
           report_file (bytes "buy milk"));
    try reflexivity; [vm_compute; intuition discriminate | discriminate].
Defined.

(* ================================================================== *)
(** ** Files of short lines *)

Lemma read_line_tail (k : nat) (tail : chars) :
  ~ In newline tail -> length tail <= k -> read_line k tail = (tail, []).
Proof.
  revert k. induction tail as [|c tail IH]; intros k Hn Hl.
  - destruct k; reflexivity.
  - destruct k; [simpl in Hl; lia|]. simpl.
    destruct (Ascii.eqb c newline) eqn:E.
    + apply Ascii.eqb_eq in E. simpl in Hn. tauto.
    + rewrite IH; [reflexivity | simpl in Hn; tauto | simpl in Hl; lia].
Qed.

Lemma lines_of_short_lines (ls : list chars) (tail : chars) :
  Forall (fun l => ~ In newline l /\ length l <= 1022) ls ->
  ~ In newline tail -> length tail <= 1023 ->
  forall fuel,
    length (concat (map (fun l => l ++ [newline]) ls) ++ tail) < fuel ->
    lines_of fuel (concat (map (fun l => l ++ [newline]) ls) ++ tail)
    = Some (map (fun l => l ++ [newline]) ls
            ++ match tail with [] => [] | _ => [tail] end).
Proof.
  intros F Hn Hl. induction F as [|l ls [Hnl Hll] _ IH]; intros fuel Hf.
  - cbn [map concat List.app] in *. destruct fuel; [lia|]. cbn [lines_of].
    destruct tail as [|c tail]; [reflexivity|].
    unfold fgets. change (1024 - 1) with 1023.
    rewrite (read_line_tail 1023 (c :: tail) Hn Hl).
    destruct fuel; [simpl in Hf; lia|]. reflexivity.
  - destruct fuel; [lia|]. cbn [map concat] in *. cbn [lines_of].
    rewrite <- !app_assoc in *. cbn [List.app] in *.
    rewrite (fgets_whole 1024 l _ Hnl) by (change (1024 - 1) with 1023; lia).
    rewrite IH; [reflexivity|].
    rewrite !length_app in Hf. cbn [length] in Hf. rewrite length_app.
    rewrite length_app in Hf. lia.
Qed.

Lemma cstr_in (x : ascii) (l : chars) : In x (cstr l) -> In x l.
Proof.
  induction l as [|c l IH]; simpl; [tauto|].
  destruct (Ascii.eqb c NUL); simpl; tauto.
Qed.

Lemma cstr_snoc (l : chars) :
  cstr (l ++ [newline]) = cstr l \/ cstr (l ++ [newline]) = cstr l ++ [newline].
Proof.
  induction l as [|c l IH]; simpl; [right; reflexivity|].
  destruct (Ascii.eqb c NUL); [left; reflexivity|].
  destruct IH as [-> | ->]; [left | right]; reflexivity.
Qed.

Lemma strip_trailing_newline_snoc (q : chars) :
  strip_trailing_newline (q ++ [newline]) = q.
Proof.
  induction q as [|c q IH]; [reflexivity|].
  cbn [List.app strip_trailing_newline]. rewrite IH.
  destruct (q ++ [newline]) eqn:E; [destruct q; discriminate | reflexivity].
Qed.

Lemma strip_trailing_newline_none (q : chars) :
  ~ In newline q -> strip_trailing_newline q = q.
Proof.
  induction q as [|c q IH]; [reflexivity|]. intros H. cbn [strip_trailing_newline].
  destruct q as [|d q].
  - destruct (Ascii.eqb c newline) eqn:E; [|reflexivity].
    apply Ascii.eqb_eq in E. simpl in H. tauto.
  - rewrite IH; [reflexivity | simpl in H |- *; tauto].
Qed.

Lemma split_at_first_snoc (s : chars) :
  split_at_first semicolon (s ++ [newline])
  = match split_at_first semicolon s with
    | Some (p, q) => Some (p, q ++ [newline])
    | None => None
    end.
Proof.
  induction s as [|c s IH]; [reflexivity|]. cbn [List.app split_at_first].
  destruct (Ascii.eqb c semicolon); [reflexivity|]. rewrite IH.
  destruct (split_at_first semicolon s) as [[p q]|]; reflexivity.
Qed.

Lemma split_at_first_after_in (c x : ascii) (s p q : chars) :
  split_at_first c s = Some (p, q) -> In x q -> In x s.
Proof.
  revert p. induction s as [|y s IH]; intros p; simpl; [discriminate|].
  destruct (Ascii.eqb y c).
  - intros H. injection H as _ <-. auto.
  - destruct (split_at_first c s) as [[p' q']|]; [|discriminate].
    intros H. injection H as _ <-. intros I. right. apply (IH p' eq_refl I).
Qed.

Lemma line_spec_snoc (s : chars) :
  ~ In newline s -> line_spec (s ++ [newline]) = line_spec s.
Proof.
  intros H. unfold line_spec. rewrite split_at_first_snoc.
  destruct (split_at_first semicolon s) as [[p q]|] eqn:E.
  - rewrite strip_trailing_newline_snoc, strip_trailing_newline_none; [reflexivity|].
    intros I. apply H. apply (split_at_first_after_in _ _ _ _ _ E I).
  - rewrite strip_trailing_newline_snoc, (strip_trailing_newline_none s H).
    reflexivity.
Qed.

Lemma line_spec_cstr_snoc (l : chars) :
  ~ In newline l -> line_spec (cstr (l ++ [newline])) = line_spec (cstr l).
Proof.
  intros H. destruct (cstr_snoc l) as [-> | ->]; [reflexivity|].
  apply line_spec_snoc. intros I. apply H, (cstr_in _ _ I).
Qed.

(** X16. When no line of [tasks.txt] has more than 1022 characters before
    its newline, [load_tasks_from_file] adds exactly one task per line, in
    the order of the file, each read by the line format from the line
    without its newline; a last line without newline counts as a line, an
    empty file gives no task. *)
Theorem load_one_task_per_line (a : app) (ls : list chars) (tail : chars) :
  fopen_r (disk a) = Some (concat (map (fun l => l ++ [newline]) ls) ++ tail) ->
  Forall (fun l => ~ In newline l /\ length l <= 1022) ls ->
  ~ In newline tail -> length tail <= 1023 ->
  exists a',
    load_tasks_from_file a = Some a'
    /\ tasks a'
       = tasks a ++ map (fun l => line_spec (cstr l))
                        (ls ++ match tail with [] => [] | _ => [tail] end).
Proof.
  intros E F Hn Hl. pose proof (load_tasks_from_file_spec a) as L.
  rewrite E in L. destruct L as (ls' & Els & L).
  destruct (lines_of_partition _ _ _ Els) as [_ P].
  rewrite (lines_of_short_lines ls tail F Hn Hl) in Els by lia.
  injection Els as <-. eexists. split; [exact L|].
  rewrite tasks_fold_load_line, (tasks_of_lines _ P). f_equal.
  rewrite !map_app, map_map. f_equal.
  apply map_ext_in. intros l Il. rewrite Forall_forall in F.
  apply line_spec_cstr_snoc, (proj1 (F l Il)).
Qed.

Lemma load_one_task_per_line_witness :
  exists a',
    load_tasks_from_file (fresh (mkFs (Some report_file) true true)) = Some a'
    /\ tasks a'
       = [] ++ map (fun l => line_spec (cstr l))
                   ([bytes "1;finish report"; bytes "hello world"] ++ []).
Proof.
  apply (load_one_task_per_line (fresh (mkFs (Some report_file) true true))
           [bytes "1;finish report"; bytes "hello world"] []);
    [reflexivity | | intros [] | simpl; lia].
  repeat constructor; vm_compute; intuition (try discriminate; try lia).
Defined.

(* ================================================================== *)
(** ** A toggle on disk *)

(** X17. A click on a check button is saved at once: when the file can be
    written, it holds afterwards the lines of the other rows as they were
    and, at its place, the line of the clicked row with the other digit. *)
Theorem toggle_is_saved (a : app) (before after : list list_box_row) (x : list_box_row) :
  wf a -> write_ok (disk a) = true -> list_box a = before ++ x :: after ->
  exists a1,
    click_check_button (row_id x) a = Some a1
    /\ tasks_txt (disk a1)
       = Some (concat (map task_line before)
               ++ ((if active x then "0"%char else "1"%char)
                   :: semicolon :: label_text x ++ [newline])
               ++ concat (map task_line after)).
Proof.
  intros W Hw Hl.
  assert (H : has_row (row_id x) a).
  { unfold has_row. rewrite Hl. apply in_map, in_or_app. right. left. reflexivity. }
  eexists. split; [apply (click_check_button_spec a (row_id x) W H)|].
  rewrite tasks_txt_saved by exact Hw.
  rewrite (serialize_task_lines _ (wf_text _ (wf_toggle a (row_id x) W))).
  cbn [list_box with_list_box]. rewrite Hl, map_app. cbn [map].
  pose proof (wf_ids a W) as D. rewrite Hl, map_app in D. cbn [map] in D.
  pose proof (NoDup_remove_2 _ _ _ D) as N.
  rewrite (map_toggle_other (row_id x) before), (map_toggle_other (row_id x) after)
    by (intros I; apply N, in_or_app; auto).
  rewrite Nat.eqb_refl, map_app, concat_app. cbn [map concat].
  unfold task_line at 2. cbn [toggled active label_text].
  destruct (active x); reflexivity.
Qed.

Lemma toggle_is_saved_witness :
  exists a1,
    click_check_button 1 three_tasks = Some a1
    /\ tasks_txt (disk a1)
       = Some (concat (map task_line [row 0 "a" false true])
               ++ ("0"%char :: semicolon :: bytes "b" ++ [newline])
               ++ concat (map task_line [row 2 "c" false true])).
Proof.
  apply (toggle_is_saved three_tasks [row 0 "a" false true] [row 2 "c" false true]
           (row 1 "b" true false));
    [exact wf_three_tasks | reflexivity | reflexivity].
Defined.
